(** * Validador de transcripciones: the rule engine of [main.py]

    A shallow embedding of the validation rules, the per-document
    analyzer and the [/analyze] endpoint, followed by the properties
    proved about them.

    Python strings are sequences of Unicode code points, so a [str] is a
    list of code points ([N]).  Literals are written as UTF-8 text and
    decoded by [py]. *)

From Stdlib Require Import NArith ZArith QArith Lia List String Ascii Bool DecimalString.
From stdpp Require Import base option list gmap.

Local Open Scope N_scope.
Set Warnings "-clear-no-such-hyp".
Local Open Scope list_scope.

(** ** Strings *)

Module Str.

Definition str := list N.

(** UTF-8 decoding of a source literal (bytes) into code points. *)
Fixpoint utf8_decode (bs : list N) : str :=
  match bs with
  | [] => []
  | b :: r =>
    if b <? 128 then b :: utf8_decode r
    else if b <? 224 then
      match r with
      | b1 :: r1 => ((b - 192) * 64 + (b1 - 128)) :: utf8_decode r1
      | [] => []
      end
    else if b <? 240 then
      match r with
      | b1 :: b2 :: r2 =>
        ((b - 224) * 4096 + (b1 - 128) * 64 + (b2 - 128)) :: utf8_decode r2
      | _ => []
      end
    else
      match r with
      | b1 :: b2 :: b3 :: r3 =>
        ((b - 240) * 262144 + (b1 - 128) * 4096 + (b2 - 128) * 64 + (b3 - 128))
          :: utf8_decode r3
      | _ => []
      end
  end.

Definition py (s : string) : str :=
  utf8_decode (List.map N_of_ascii (list_ascii_of_string s)).
Arguments py s%_string.

Definition str_eqb (a b : str) : bool := bool_decide (a = b).

(** [Py_UNICODE_ISSPACE]: the characters [str.strip()] removes and the
    regular expression class [\s] matches. *)
Definition isspace (c : N) : bool :=
  ((9 <=? c) && (c <=? 13)) || ((28 <=? c) && (c <=? 32))
  || (c =? 133) || (c =? 160) || (c =? 5760)
  || ((8192 <=? c) && (c <=? 8202))
  || (c =? 8232) || (c =? 8233) || (c =? 8239) || (c =? 8287) || (c =? 12288).

Fixpoint lstrip (s : str) : str :=
  match s with
  | c :: s' => if isspace c then lstrip s' else s
  | [] => []
  end.

Definition rstrip (s : str) : str := rev (lstrip (rev s)).

(** [s.strip()] *)
Definition strip (s : str) : str := rstrip (lstrip s).

(** [s.startswith(p)] *)
Fixpoint startswith (s p : str) : bool :=
  match p, s with
  | [], _ => true
  | a :: p', b :: s' => (a =? b) && startswith s' p'
  | _ :: _, [] => false
  end.

(** [s.endswith(p)] *)
Definition endswith (s p : str) : bool := startswith (rev s) (rev p).

(** [p in s] on strings: [p] occurs in [s] as a contiguous substring. *)
Fixpoint contains (s p : str) : bool :=
  startswith s p ||
  match s with
  | _ :: s' => contains s' p
  | [] => false
  end.

(** [s.split(sep)[0]] for a one-character separator: the text before the
    first separator, or all of [s] when there is none. *)
Fixpoint split_first (sep : N) (s : str) : str :=
  match s with
  | [] => []
  | c :: s' => if c =? sep then [] else c :: split_first sep s'
  end.

Definition is_upper_ascii (c : N) : bool := (65 <=? c) && (c <=? 90).
Definition is_lower_ascii (c : N) : bool := (97 <=? c) && (c <=? 122).
Definition is_digit_ascii (c : N) : bool := (48 <=? c) && (c <=? 57).
Definition ascii_tolower (c : N) : N := if is_upper_ascii c then c + 32 else c.

End Str.
Export Str.

(** ** What the interpreter supplies

    The Unicode character database and the printing of floats live in
    the Python runtime, not in this repository.  The ASCII range is
    fixed below; everything above U+007F is read from these tables. *)

Class Interp := {
  (** [Py_UNICODE_ISALNUM] for code points above U+007F (drives [\w], [\b]) *)
  uni_isalnum : N -> bool;
  (** simple lowercase mapping above U+007F (used by [re.IGNORECASE]) *)
  uni_tolower : N -> N;
  (** [str.lower()] of one non-ASCII character, given the text before it
      (reversed) and after it: the full mapping is context sensitive *)
  uni_lower : str -> N -> str -> str;
  (** [str(x)] of the float nearest to a rational *)
  float_str : Q -> str
}.

Section Lowering.
Context `{Interp}.

Fixpoint lower_from (before : str) (s : str) : str :=
  match s with
  | [] => []
  | c :: s' =>
    (if c <? 128 then [ascii_tolower c] else uni_lower before c s')
      ++ lower_from (c :: before) s'
  end.

(** [s.lower()] *)
Definition lower (s : str) : str := lower_from [] s.

(** [\w] of a [str] pattern: alphanumeric or underscore. *)
Definition is_word (c : N) : bool :=
  if c <? 128
  then is_upper_ascii c || is_lower_ascii c || is_digit_ascii c || (c =? 95)
  else uni_isalnum c.

(** the lowering [re] applies to a character under [re.IGNORECASE] *)
Definition sre_lower (c : N) : N :=
  if c <? 128 then ascii_tolower c else uni_tolower c.

End Lowering.

(** ** The fragment of Python's [re] the rules use

    Patterns are kept as syntax trees; the matcher is a backtracking
    matcher in continuation-passing style with Python's priorities
    (leftmost alternative first, greedy repetition).  Repetition is only
    ever applied to a single-character class in this program, which keeps
    the matcher structurally recursive. *)

Module Re.

Inductive cset :=
| CChar (c : N)              (* a literal character *)
| CRange (lo hi : N)         (* lo-hi *)
| CSpace                     (* \s *)
| CUnion (a b : cset)        (* [ab] *)
| CNot (a : cset).           (* [^a] *)

Inductive regex :=
| REps
| RChar (cs : cset)          (* one character of a class *)
| RRep (cs : cset) (min : nat) (* cs{min,}, greedy: * is 0, + is 1 *)
| RBol                       (* ^ without re.MULTILINE *)
| REol                       (* $ without re.MULTILINE *)
| RWordB                     (* \b *)
| RSeq (r1 r2 : regex)
| RAlt (r1 r2 : regex)
| RGroup (r : regex).        (* the capturing group (...) *)

(** a literal word of the pattern *)
Definition lit (s : str) : regex :=
  foldr (fun c r => RSeq (RChar (CChar c)) r) REps s.

Record mstate := MState {
  m_prev : option N;         (* character before the cursor *)
  m_pos : nat;               (* cursor, counted from the start of the text *)
  m_rest : str;              (* text from the cursor on *)
  m_grp : option (nat * nat) (* span of group 1 *)
}.

Section Matcher.
Context `{Interp}.

(** case fixes of [re]: dotless i for i, long s for s *)
Definition fix_equiv (lo ch : N) : bool :=
  ((lo =? 105) && (ch =? 305)) || ((lo =? 115) && (ch =? 383)).

Definition ci_hit (ch p : N) : bool :=
  let lo := sre_lower p in (ch =? lo) || fix_equiv lo ch.

Definition nrange (lo hi : N) : list N :=
  List.map (fun k => lo + N.of_nat k) (seq 0 (N.to_nat (hi + 1 - lo))).

(** membership in a compiled class; under [ic] the class has been
    lowered and extended by the case fixes, and [ch] is the lowered text
    character *)
Fixpoint cs_compiled (ic : bool) (cs : cset) (ch : N) : bool :=
  match cs with
  | CChar p => if ic then ci_hit ch p else ch =? p
  | CRange lo hi =>
    if ic then existsb (ci_hit ch) (nrange lo hi)
    else (lo <=? ch) && (ch <=? hi)
  | CSpace => isspace ch
  | CUnion a b => cs_compiled ic a ch || cs_compiled ic b ch
  | CNot a => negb (cs_compiled ic a ch)
  end.

Definition cs_in (ic : bool) (cs : cset) (c : N) : bool :=
  cs_compiled ic cs (if ic then sre_lower c else c).

Definition word_opt (o : option N) : bool :=
  match o with Some c => is_word c | None => false end.

(** [\b]: exactly one side of the cursor is a word character *)
Definition at_boundary (st : mstate) : bool :=
  xorb (word_opt (m_prev st)) (word_opt (head (m_rest st))).

(** [$]: at the end, or just before a final newline *)
Definition at_end (s : str) : bool :=
  match s with
  | [] => true
  | [c] => c =? 10
  | _ => false
  end.

Fixpoint rep {R} (ic : bool) (cs : cset) (min : nat) (g : option (nat * nat))
    (prev : option N) (pos : nat) (s : str) (k : mstate -> option R) : option R :=
  let stop := match min with O => k (MState prev pos s g) | S _ => None end in
  match s with
  | c :: s' =>
    if cs_in ic cs c then
      match rep ic cs (pred min) g (Some c) (S pos) s' k with
      | Some x => Some x
      | None => stop
      end
    else stop
  | [] => stop
  end.

Fixpoint mt {R} (ic : bool) (r : regex) (st : mstate)
    (k : mstate -> option R) : option R :=
  match r with
  | REps => k st
  | RChar cs =>
    match m_rest st with
    | c :: s' =>
      if cs_in ic cs c
      then k (MState (Some c) (S (m_pos st)) s' (m_grp st))
      else None
    | [] => None
    end
  | RRep cs min => rep ic cs min (m_grp st) (m_prev st) (m_pos st) (m_rest st) k
  | RBol => match m_pos st with O => k st | S _ => None end
  | REol => if at_end (m_rest st) then k st else None
  | RWordB => if at_boundary st then k st else None
  | RSeq r1 r2 => mt ic r1 st (fun st1 => mt ic r2 st1 k)
  | RAlt r1 r2 =>
    match mt ic r1 st k with
    | Some x => Some x
    | None => mt ic r2 st k
    end
  | RGroup r1 =>
    mt ic r1 st (fun st1 =>
      k (MState (m_prev st1) (m_pos st1) (m_rest st1)
                (Some (m_pos st, m_pos st1))))
  end.

(** try to match with the cursor where [st] has it *)
Definition match_at (ic : bool) (r : regex) (st : mstate) : option mstate :=
  mt ic r st Some.

(** [re.match(r, s, flags)] *)
Definition re_match (ic : bool) (r : regex) (s : str) : option mstate :=
  match_at ic r (MState None 0 s None).

Fixpoint search_from (ic : bool) (r : regex) (prev : option N) (pos : nat)
    (s : str) : option mstate :=
  match match_at ic r (MState prev pos s None) with
  | Some st => Some st
  | None =>
    match s with
    | c :: s' => search_from ic r (Some c) (S pos) s'
    | [] => None
    end
  end.

(** [re.search(r, s, flags)]: the leftmost match *)
Definition re_search (ic : bool) (r : regex) (s : str) : option mstate :=
  search_from ic r None 0 s.

(** [m.group(1)] for a match on [s] *)
Definition group1 (s : str) (st : mstate) : str :=
  match m_grp st with
  | Some (a, b) => take (b - a) (drop a s)
  | None => []
  end.

(** [findall] for a pattern without groups: the texts of the successive
    non-overlapping matches, scanning left to right; [skip] characters
    are still covered by the previous match *)
Fixpoint findall_from (r : regex) (prev : option N) (pos : nat) (s : str)
    (skip : nat) : list str :=
  match skip with
  | S k =>
    match s with
    | c :: s' => findall_from r (Some c) (S pos) s' k
    | [] => []
    end
  | O =>
    match match_at false r (MState prev pos s None) with
    | Some st =>
      let n := (m_pos st - pos)%nat in
      take n s ::
        match s with
        | c :: s' => findall_from r (Some c) (S pos) s' (pred n)
        | [] => []
        end
    | None =>
      match s with
      | c :: s' => findall_from r (Some c) (S pos) s' 0
      | [] => []
      end
    end
  end.

(** [re.compile(r).findall(s)] *)
Definition findall (r : regex) (s : str) : list str :=
  findall_from r None 0 s 0.

End Matcher.
End Re.
Export Re.

Local Close Scope N_scope.

(** ** The parsed document, as [python-docx] presents it *)

Record Font := {
  font_name : option str;    (* [font.name]: [None] when not set *)
  font_size : option Z       (* [font.size]: a [Length] in EMU, [None] when not set *)
}.

Record Run := {
  run_text : str;
  run_bold : option bool;    (* [run.bold] is True, False or None *)
  run_font : Font
}.

Record Paragraph := {
  para_text : str;
  para_runs : list Run
}.

Record Document := { paragraphs : list Paragraph }.

(** [Length.pt]: 12700 EMU to the point *)
Definition pt (emu : Z) : Q := Qmake emu 12700.

(** ** Error tuples and the analysis result *)

Definition ErrorTuple : Type := nat * str * str.

Record ErrorRecord := {
  linea : nat;
  tipo_error : str;
  descripcion : str
}.

Record AnalysisResult := {
  archivo : str;
  resumen : gmap str nat;
  errores : list ErrorRecord
}.

(** ** Rules *)

Definition ETIQUETAS_VALIDAS : list str :=
  [py "ENTREVISTADOR"; py "ENTREVISTADORA"; py "ENTREVISTADO"; py "ENTREVISTADA"].

Definition word_pat (w : regex) : regex := RSeq RWordB (RSeq w RWordB).

(** a word followed by [[a-z]*] *)
Definition stem_pat (s : string) : regex :=
  word_pat (RSeq (lit (py s)) (RRep (CRange 97 122) 0)).

(** Each forbidden pattern with its source text (shown in the error
    description) and its syntax tree. *)
Definition ETIQUETAS_INVALIDAS_PATRONES : list (str * regex) :=
  [ (py "\bUsuario\b", word_pat (lit (py "Usuario")));
    (py "\bX{3,}\b", word_pat (RRep (CChar 88) 3));
    (py "\bXxxxxxx\b", word_pat (lit (py "Xxxxxxx")));
    (py "\bEntrevistador[a-z]*\b", stem_pat "Entrevistador");
    (py "\bEntrevistado[a-z]*\b", stem_pat "Entrevistado");
    (py "\bentrevistador[a-z]*\b", stem_pat "entrevistador");
    (py "\bentrevistado[a-z]*\b", stem_pat "entrevistado");
    (py "\bModerador[a-z]*\b", stem_pat "Moderador");
    (py "\bmoderador[a-z]*\b", stem_pat "moderador");
    (py "\bSpeaker[a-z]*\b", stem_pat "Speaker");
    (py "\bSPEAKER[a-z]*\b", stem_pat "SPEAKER") ].

(** [^([A-Z]+):] *)
Definition patron_etiqueta : regex :=
  RSeq RBol (RSeq (RGroup (RRep (CRange 65 90) 1)) (RChar (CChar 58))).

(** [[^?\n]+\?] *)
Definition patron_pregunta : regex :=
  RSeq (RRep (CNot (CUnion (CChar 63) (CChar 10))) 1) (RChar (CChar 63)).

Definition O_or_A : cset := CUnion (CChar 79) (CChar 65).

(** [^(ENTREVISTAD[OA]|ENTREVISTADOR[OA]):\s*$] *)
Definition patron_intervencion_vacia : regex :=
  RSeq RBol
    (RSeq (RGroup (RAlt (RSeq (lit (py "ENTREVISTAD")) (RChar O_or_A))
                        (RSeq (lit (py "ENTREVISTADOR")) (RChar O_or_A))))
      (RSeq (RChar (CChar 58)) (RSeq (RRep CSpace 0) REol))).

Definition K_PREGUNTA : str := py "Pregunta no coincide".
Definition K_ETIQUETA : str := py "Etiqueta inválida".
Definition K_ENCABEZADO : str := py "Encabezado sin negrita".
Definition K_NEGRITA : str := py "Formato en negrita".
Definition K_FUENTE : str := py "Fuente incorrecta".
Definition K_TAMANO : str := py "Tamaño incorrecto".
Definition K_VACIA : str := py "Intervención vacía tras etiqueta".

(** [for i, x in enumerate(l): errores += body(i, x)], started at index [i] *)
Fixpoint for_enum {A B} (body : nat -> A -> list B) (i : nat) (l : list A) : list B :=
  match l with
  | [] => []
  | x :: l' => body i x ++ for_enum body (S i) l'
  end.

Definition truthy_str (o : option str) : bool :=
  match o with Some (_ :: _) => true | _ => false end.

Definition is_true_opt (o : option bool) : bool :=
  match o with Some true => true | _ => false end.

Definition nonempty (s : str) : bool :=
  match s with [] => false | _ :: _ => true end.

Definition str_in (s : str) (l : list str) : bool := bool_decide (s ∈ l).

Section Validators.
Context `{Interp}.

(** the inner loop of [validar_negrita_entrevistador]: [is_bold] after it *)
Fixpoint runs_all_bold (rs : list Run) : bool :=
  match rs with
  | [] => true
  | run :: rs' =>
    if nonempty (strip (run_text run)) && negb (is_true_opt (run_bold run))
    then false
    else runs_all_bold rs'
  end.

Definition validar_negrita_entrevistador (doc : Document) : list ErrorTuple :=
  for_enum (fun i para =>
    let texto := strip (para_text para) in
    if startswith texto (py "ENTREVISTADOR:") || startswith texto (py "ENTREVISTADORA:")
    then
      if negb (runs_all_bold (para_runs para))
      then [(i + 1, K_NEGRITA,
             py "Texto de " ++ split_first 58 texto
               ++ py " no está completamente en negrita.")]
      else []
    else []) 0 (paragraphs doc).

Definition validar_etiquetas_docx (doc : Document) : list ErrorTuple :=
  for_enum (fun i para =>
    let texto := strip (para_text para) in
    match re_match false patron_etiqueta texto with
    | Some m =>
      let etiqueta := group1 texto m in
      if negb (str_in etiqueta ETIQUETAS_VALIDAS)
      then [(i + 1, K_ETIQUETA,
             py "Etiqueta '" ++ etiqueta ++ py "' no es válida.")]
      else if str_in etiqueta [py "ENTREVISTADOR"; py "ENTREVISTADORA"]
      then
        if negb (existsb (fun run => is_true_opt (run_bold run)
                                     && contains (run_text run) etiqueta)
                         (para_runs para))
        then [(i + 1, K_ENCABEZADO,
               py "Etiqueta '" ++ etiqueta ++ py "' debería estar en negrita.")]
        else []
      else []
    | None => []
    end) 0 (paragraphs doc).

(** the inner loop of [detectar_etiquetas_invalidas], with its [break] *)
Fixpoint primer_patron (i : nat) (texto : str) (pats : list (str * regex))
    : list ErrorTuple :=
  match pats with
  | [] => []
  | (patron, r) :: pats' =>
    match re_search true r texto with
    | Some _ =>
      [(i + 1, K_ETIQUETA, py "Se encontró coincidencia con patrón: " ++ patron)]
    | None => primer_patron i texto pats'
    end
  end.

Definition detectar_etiquetas_invalidas (doc : Document) : list ErrorTuple :=
  for_enum (fun i para =>
    primer_patron i (strip (para_text para)) ETIQUETAS_INVALIDAS_PATRONES)
    0 (paragraphs doc).

Definition extraer_preguntas_docx (doc : Document) : list (nat * str) :=
  for_enum (fun i para =>
    flat_map (fun pregunta =>
      let pregunta_limpia := strip pregunta in
      if nonempty pregunta_limpia then [(i + 1, pregunta_limpia)] else [])
      (findall patron_pregunta (para_text para)))
    0 (paragraphs doc).

Definition comparar_preguntas (preguntas_docx : list (nat * str))
    (preguntas_ref : list str) : list ErrorTuple :=
  flat_map (fun '(linea, pregunta) =>
    if negb (str_in pregunta preguntas_ref)
    then [(linea, K_PREGUNTA,
           py "'" ++ pregunta ++ py "' no está en la matriz de referencia")]
    else []) preguntas_docx.

(** [run.font.size.pt if run.font.size else None] *)
Definition tam_of (f : Font) : option Q :=
  match font_size f with
  | Some emu => if Z.eqb emu 0 then None else Some (pt emu)
  | None => None
  end.

Definition fuente_mal (f : Font) : bool :=
  match font_name f with
  | Some fuente => nonempty fuente && negb (str_eqb (lower fuente) (py "arial"))
  | None => false
  end.

Definition tam_mal (f : Font) : bool :=
  match tam_of f with
  | Some tam => negb (Qeq_bool tam 0) && negb (Qeq_bool tam 12)
  | None => false
  end.

(** the inner loop of [validar_fuente_tamano], with its two [break]s *)
Fixpoint revisar_runs (i : nat) (rs : list Run) : list ErrorTuple :=
  match rs with
  | [] => []
  | run :: rs' =>
    let fuente := font_name (run_font run) in
    let tam := tam_of (run_font run) in
    if fuente_mal (run_font run)
    then [(i + 1, K_FUENTE, py "'" ++ default [] fuente ++ py "' en vez de Arial")]
    else if tam_mal (run_font run)
    then [(i + 1, K_TAMANO,
           float_str (default 0%Q tam) ++ py "pt en vez de 12pt")]
    else revisar_runs i rs'
  end.

Definition validar_fuente_tamano (doc : Document) : list ErrorTuple :=
  for_enum (fun i para => revisar_runs i (para_runs para)) 0 (paragraphs doc).

Definition validar_intervencion_vacia (doc : Document) : list ErrorTuple :=
  for_enum (fun i para =>
    match re_match false patron_intervencion_vacia (strip (para_text para)) with
    | Some _ =>
      [(i + 1, K_VACIA, py "Debe ir junto al texto, sin salto de línea")]
    | None => []
    end) 0 (paragraphs doc).

End Validators.

(** ** What the libraries and the environment supply

    Parsing a .docx ([python-docx]) and reading column C of a .xlsx
    ([pandas]) are library calls; both may raise. *)

Definition bytes := list Byte.byte.

Class Libs := {
  exn : Type;
  (** [Document(io.BytesIO(b))] *)
  docx_Document : bytes -> exn + Document;
  cell : Type;
  (** [pd.read_excel(io.BytesIO(b), usecols="C", engine="openpyxl")]: the
      cells of the column below its header, [None] for a missing value *)
  pd_read_excel_C : bytes -> exn + list (option cell);
  (** one cell under [.astype(str)] *)
  cell_str : cell -> str;
  (** [os.getenv("API_TOKEN", None)] when the module was loaded *)
  API_TOKEN : option str
}.

Record UploadFile := {
  filename : str;
  content : bytes
}.

(** ** Effects: a log of what was read and parsed, and failure *)

Inductive event :=
| EvRead (f : UploadFile)          (* [await f.read()] *)
| EvParseXlsx (b : bytes)          (* [pd.read_excel] was called *)
| EvParseDocx (b : bytes).         (* [Document(...)] was called *)

Inductive reply `{Libs} (A : Type) :=
| Ret (a : A)
| Raised (e : exn)                         (* a library exception propagates *)
| HTTPException (status_code : nat) (detail : str).
Arguments Ret {_ _} a.
Arguments Raised {_ _} e.
Arguments HTTPException {_ _} status_code detail.

Definition M `{Libs} (A : Type) : Type := list event -> reply A * list event.

Section Monad.
Context `{Libs}.

Definition ret {A} (a : A) : M A := fun t => (Ret a, t).

Definition bind {A B} (m : M A) (k : A -> M B) : M B :=
  fun t =>
    match m t with
    | (Ret a, t') => k a t'
    | (Raised e, t') => (Raised e, t')
    | (HTTPException c d, t') => (HTTPException c d, t')
    end.

Definition tell (e : event) : M unit := fun t => (Ret tt, t ++ [e]).

Definition raise_http {A} (c : nat) (d : str) : M A :=
  fun t => (HTTPException c d, t).

Definition lift {A} (x : exn + A) : M A :=
  fun t => match x with inl e => (Raised e, t) | inr a => (Ret a, t) end.

End Monad.

Notation "'let*' x ':=' m 'in' k" := (bind m (fun x => k))
  (at level 10, x name, m at level 100, k at level 200).

Inductive Response :=
| JSONResponse (status_code : nat) (ok : bool) (message : str)
| AnalyzeResponse (ok : bool) (total_archivos : nat)
    (resultados : list AnalysisResult).

Definition MAX_DOCX : nat := 10.

Section Analyzer.
Context `{Interp} `{Libs}.

Definition check_token (x_token : option str) : M unit :=
  match API_TOKEN with
  | None => ret tt
  | Some tok =>
    if bool_decide (x_token = Some tok) then ret tt
    else raise_http 401 (py "Unauthorized")
  end.

Definition read_excel_questions (excel_bytes : bytes) : M (list str) :=
  let* _u := tell (EvParseXlsx excel_bytes) in
  let* df := lift (pd_read_excel_C excel_bytes) in
  ret (List.map cell_str (omap id df)).

Definition doc_from_bytes (docx_bytes : bytes) : M Document :=
  let* _u := tell (EvParseDocx docx_bytes) in
  lift (docx_Document docx_bytes).

(** [await f.read()] *)
Definition read (f : UploadFile) : M bytes :=
  let* _u := tell (EvRead f) in ret (content f).

(** [resumen[k] = resumen.get(k, 0) + 1] over the error list *)
Definition contar (errores_list : list ErrorRecord) : gmap str nat :=
  foldl (fun resumen e =>
           <[tipo_error e := default 0 (resumen !! tipo_error e) + 1]> resumen)
        ∅ errores_list.

Definition analizar_un_docx (nombre : str) (docx_bytes : bytes)
    (preguntas_ref : list str) : M AnalysisResult :=
  let* doc := doc_from_bytes docx_bytes in
  let errores :=
    comparar_preguntas (extraer_preguntas_docx doc) preguntas_ref
    ++ validar_etiquetas_docx doc
    ++ validar_negrita_entrevistador doc
    ++ validar_fuente_tamano doc
    ++ validar_intervencion_vacia doc
    ++ detectar_etiquetas_invalidas doc in
  let errores_list :=
    List.map (fun '(l, t, d) =>
                {| linea := l; tipo_error := t; descripcion := d |}) errores in
  let resumen := contar errores_list in
  ret {| archivo := nombre; resumen := resumen; errores := errores_list |}.

(** the [for f in docx_files] loop of the endpoint *)
Fixpoint analizar_cada_uno (docx_files : list UploadFile) (preguntas_ref : list str)
    (resultados : list AnalysisResult) : M (list AnalysisResult) :=
  match docx_files with
  | [] => ret resultados
  | f :: rest =>
    let* contenido := read f in
    let* r := analizar_un_docx (filename f) contenido preguntas_ref in
    analizar_cada_uno rest preguntas_ref (resultados ++ [r])
  end.

Definition es_docx (f : UploadFile) : bool :=
  endswith (lower (filename f)) (py ".docx").

Definition analyze_endpoint (documentos : list UploadFile)
    (preguntas_excel : UploadFile) (x_token : option str) : M Response :=
  let* _u := check_token x_token in
  let docx_files := List.filter es_docx documentos in
  if Nat.eqb (length docx_files) 0
  then ret (JSONResponse 400 false (py "Debes adjuntar al menos un .docx"))
  else
    let docx_files :=
      if Nat.ltb MAX_DOCX (length docx_files)
      then take MAX_DOCX docx_files else docx_files in
    if negb (endswith (lower (filename preguntas_excel)) (py ".xlsx"))
    then ret (JSONResponse 400 false (py "Debes adjuntar un .xlsx de preguntas"))
    else
      let* excel_bytes := read preguntas_excel in
      let* preguntas_ref := read_excel_questions excel_bytes in
      let* resultados := analizar_cada_uno docx_files preguntas_ref [] in
      ret (AnalyzeResponse true (length resultados) resultados).

End Analyzer.

(** ** A concrete runtime, for evaluating the rules on examples

    The tables cover Latin-1, which is all the examples use. *)

Module Demo.

Local Open Scope N_scope.

Definition latin1_upper (c : N) : bool :=
  (192 <=? c) && (c <=? 222) && negb (c =? 215).

Definition latin1_isalnum (c : N) : bool :=
  (c =? 170) || (c =? 178) || (c =? 179) || (c =? 181) || (c =? 185)
  || (c =? 186) || ((188 <=? c) && (c <=? 190))
  || ((192 <=? c) && (c <=? 255) && negb (c =? 215) && negb (c =? 247)).

Definition latin1_tolower (c : N) : N := if latin1_upper c then c + 32 else c.

Definition digits (z : Z) : str :=
  List.map N_of_ascii (list_ascii_of_string (DecimalString.NilZero.string_of_int (Z.to_int z))).

(** exact for the sizes a .docx stores, which are whole half-points *)
Definition half_point_str (q : Q) : str :=
  let twice := (2 * Qnum q / Z.pos (Qden q))%Z in
  digits (twice / 2)%Z ++ [46; if Z.even twice then 48 else 53].

Definition interp : Interp := {|
  uni_isalnum := latin1_isalnum;
  uni_tolower := latin1_tolower;
  uni_lower := fun _ c _ => [latin1_tolower c];
  float_str := half_point_str
|}.

(** a [python-docx] that parses every file to [d], and a [pandas] that
    reads the reference list [ref] from every spreadsheet *)
Definition libs (d : Document) (ref : list str) (tok : option str) : Libs := {|
  exn := unit;
  docx_Document := fun _ => inr d;
  cell := str;
  pd_read_excel_C := fun _ => inr (List.map Some ref);
  cell_str := fun c => c;
  API_TOKEN := tok
|}.

Definition plain (s : string) : Run :=
  {| run_text := py s; run_bold := None;
     run_font := {| font_name := None; font_size := None |} |}.

(** a paragraph typed as one unformatted run *)
Definition para (s : string) : Paragraph :=
  {| para_text := py s; para_runs := [plain s] |}.

End Demo.

(** * Properties *)

(** ** Lists *)

Section Filter.
Context {A : Type} (P : A -> Prop) `{!forall x, Decision (P x)}.

Lemma filter_none (l : list A) : Forall (fun x => ~ P x) l -> filter P l = [].
Proof.
  induction 1 as [|x l Hx _ IH]; [done|].
  by rewrite filter_cons_False.
Qed.

Lemma filter_all (l : list A) : Forall P l -> filter P l = l.
Proof.
  induction 1 as [|x l Hx _ IH]; [done|].
  rewrite filter_cons_True by done. by f_equal.
Qed.

End Filter.

(** ** The enumeration loop *)

Section ForEnum.
Context {A : Type}.
Implicit Types (body : nat -> A -> list ErrorTuple) (l : list A).

Definition linea_de (e : ErrorTuple) : nat := e.1.1.
Definition tipo_de (e : ErrorTuple) : str := e.1.2.

(** the body of a validator loop only reports the paragraph it is at *)
Definition local_body body : Prop :=
  forall i x e, e ∈ body i x -> linea_de e = i + 1.

Lemma for_enum_elem {B} (body : nat -> A -> list B) i l e :
  e ∈ for_enum body i l ->
  exists j x, l !! j = Some x /\ e ∈ body (i + j) x.
Proof.
  revert i; induction l as [|x l IH]; intros i; simpl.
  - by intros ?%elem_of_nil.
  - intros [Hin|Hin]%elem_of_app.
    + exists 0, x. by rewrite Nat.add_0_r.
    + destruct (IH _ Hin) as (j & y & Hj & He).
      exists (S j), y. split; [done|]. by replace (i + S j) with (S i + j) by lia.
Qed.

Lemma for_enum_lines body l e :
  local_body body -> e ∈ for_enum body 0 l ->
  1 <= linea_de e <= length l.
Proof.
  intros Hloc (j & x & Hj & He)%for_enum_elem.
  apply Hloc in He. apply lookup_lt_Some in Hj. simpl in He. lia.
Qed.

Lemma for_enum_filter_before body i l (j : nat) :
  local_body body -> j < i ->
  filter (fun e => linea_de e = j + 1) (for_enum body i l) = [].
Proof.
  intros Hloc Hlt. apply filter_none, Forall_forall.
  intros e (k & x & _ & He)%for_enum_elem. apply Hloc in He. lia.
Qed.

(** the errors a validator reports for line [j + 1] are those its body
    reports at paragraph [j] *)
Lemma for_enum_filter_from body i l (j : nat) :
  local_body body -> i <= j ->
  filter (fun e => linea_de e = j + 1) (for_enum body i l) =
  match l !! (j - i) with
  | Some x => body j x
  | None => []
  end.
Proof.
  intros Hloc. revert i; induction l as [|x l IH]; intros i Hij; simpl.
  - done.
  - rewrite filter_app. destruct (decide (j = i)) as [->|Hne].
    + rewrite for_enum_filter_before by (done || lia).
      rewrite Nat.sub_diag, app_nil_r. simpl.
      apply filter_all, Forall_forall. intros e He. by apply Hloc in He.
    + rewrite (filter_none _ (body i x)).
      2:{ apply Forall_forall. intros e He. apply Hloc in He. lia. }
      rewrite IH by lia. simpl.
      by replace (j - i) with (S (j - S i)) by lia.
Qed.

Lemma for_enum_filter body l (j : nat) x :
  local_body body -> l !! j = Some x ->
  filter (fun e => linea_de e = j + 1) (for_enum body 0 l) = body j x.
Proof.
  intros Hloc Hj. rewrite for_enum_filter_from by (done || lia).
  by rewrite Nat.sub_0_r, Hj.
Qed.

End ForEnum.

(** ** Every validator reports the paragraph it is looking at *)

Section Locality.
Context `{Interp}.

Ltac one_error He :=
  repeat (case_match; try (by apply elem_of_nil in He));
  apply list_elem_of_singleton in He; by subst.

Lemma revisar_runs_local i rs e : e ∈ revisar_runs i rs -> linea_de e = i + 1.
Proof.
  induction rs as [|r rs IH]; simpl; intros He.
  - by apply elem_of_nil in He.
  - destruct (fuente_mal _); [one_error He|].
    destruct (tam_mal _); [one_error He|]. by apply IH.
Qed.

Lemma revisar_runs_length i rs : length (revisar_runs i rs) <= 1.
Proof.
  induction rs as [|r rs IH]; simpl; [lia|].
  destruct (fuente_mal _); [simpl; lia|].
  destruct (tam_mal _); [simpl; lia|]. done.
Qed.

Lemma primer_patron_local i texto pats e :
  e ∈ primer_patron i texto pats -> linea_de e = i + 1.
Proof.
  induction pats as [|[patron r] pats IH]; simpl; intros He.
  - by apply elem_of_nil in He.
  - destruct (re_search _ _ _); [one_error He|]. by apply IH.
Qed.

(** the body of [validar_negrita_entrevistador] *)
Definition negrita_de (i : nat) (para : Paragraph) : list ErrorTuple :=
  let texto := strip (para_text para) in
  if startswith texto (py "ENTREVISTADOR:") || startswith texto (py "ENTREVISTADORA:")
  then
    if negb (runs_all_bold (para_runs para))
    then [(i + 1, K_NEGRITA,
           py "Texto de " ++ split_first 58 texto
             ++ py " no está completamente en negrita.")]
    else []
  else [].

Lemma negrita_unfold doc :
  validar_negrita_entrevistador doc = for_enum negrita_de 0 (paragraphs doc).
Proof. reflexivity. Qed.

Lemma negrita_local : local_body negrita_de.
Proof. intros i x e He. unfold negrita_de in He. simpl in He. one_error He. Qed.

(** the body of [validar_intervencion_vacia] *)
Definition vacia_de (i : nat) (para : Paragraph) : list ErrorTuple :=
  match re_match false patron_intervencion_vacia (strip (para_text para)) with
  | Some _ =>
    [(i + 1, K_VACIA, py "Debe ir junto al texto, sin salto de línea")]
  | None => []
  end.

Lemma vacia_unfold doc :
  validar_intervencion_vacia doc = for_enum vacia_de 0 (paragraphs doc).
Proof. reflexivity. Qed.

Lemma vacia_local : local_body vacia_de.
Proof. intros i x e He. unfold vacia_de in He. one_error He. Qed.

(** the body of [detectar_etiquetas_invalidas] *)
Definition detectar_de (i : nat) (para : Paragraph) : list ErrorTuple :=
  primer_patron i (strip (para_text para)) ETIQUETAS_INVALIDAS_PATRONES.

Lemma detectar_unfold doc :
  detectar_etiquetas_invalidas doc = for_enum detectar_de 0 (paragraphs doc).
Proof. reflexivity. Qed.

(** the body of [validar_fuente_tamano] *)
Definition fuente_de (i : nat) (para : Paragraph) : list ErrorTuple :=
  revisar_runs i (para_runs para).

Lemma fuente_unfold doc :
  validar_fuente_tamano doc = for_enum fuente_de 0 (paragraphs doc).
Proof. reflexivity. Qed.

Lemma fuente_local : local_body fuente_de.
Proof. intros i x e He. by apply revisar_runs_local in He. Qed.

Lemma detectar_local : local_body detectar_de.
Proof. intros i x e He. by apply primer_patron_local in He. Qed.

(** the body of [validar_etiquetas_docx] *)
Definition etiqueta_de (i : nat) (para : Paragraph) : list ErrorTuple :=
  let texto := strip (para_text para) in
  match re_match false patron_etiqueta texto with
  | Some m =>
    let etiqueta := group1 texto m in
    if negb (str_in etiqueta ETIQUETAS_VALIDAS)
    then [(i + 1, K_ETIQUETA,
           py "Etiqueta '" ++ etiqueta ++ py "' no es válida.")]
    else if str_in etiqueta [py "ENTREVISTADOR"; py "ENTREVISTADORA"]
    then
      if negb (existsb (fun run => is_true_opt (run_bold run)
                                   && contains (run_text run) etiqueta)
                       (para_runs para))
      then [(i + 1, K_ENCABEZADO,
             py "Etiqueta '" ++ etiqueta ++ py "' debería estar en negrita.")]
      else []
    else []
  | None => []
  end.

Lemma etiquetas_unfold doc :
  validar_etiquetas_docx doc = for_enum etiqueta_de 0 (paragraphs doc).
Proof. reflexivity. Qed.

Lemma etiqueta_local : local_body etiqueta_de.
Proof. intros i x e He. unfold etiqueta_de in He. simpl in He. one_error He. Qed.

(** the questions of one paragraph, and the errors they give *)
Definition preguntas_de (i : nat) (para : Paragraph) : list (nat * str) :=
  flat_map (fun pregunta =>
    let pregunta_limpia := strip pregunta in
    if nonempty pregunta_limpia then [(i + 1, pregunta_limpia)] else [])
    (findall patron_pregunta (para_text para)).

Lemma extraer_unfold doc :
  extraer_preguntas_docx doc = for_enum preguntas_de 0 (paragraphs doc).
Proof. reflexivity. Qed.

Lemma comparar_app qs1 qs2 ref :
  comparar_preguntas (qs1 ++ qs2) ref =
  comparar_preguntas qs1 ref ++ comparar_preguntas qs2 ref.
Proof. unfold comparar_preguntas. apply flat_map_app. Qed.

Lemma comparar_for_enum i ps ref :
  comparar_preguntas (for_enum preguntas_de i ps) ref =
  for_enum (fun i para => comparar_preguntas (preguntas_de i para) ref) i ps.
Proof.
  revert i; induction ps as [|p ps IH]; intros i; simpl; [done|].
  by rewrite comparar_app, IH.
Qed.

Lemma comparar_linea qs ref e :
  e ∈ comparar_preguntas qs ref -> exists q, (linea_de e, q) ∈ qs.
Proof.
  unfold comparar_preguntas. rewrite list_elem_of_In, in_flat_map.
  intros ([l q] & Hq & He). apply list_elem_of_In in Hq.
  destruct (negb _); simpl in He; [|done].
  destruct He as [<-|[]]. by exists q.
Qed.

Lemma preguntas_de_linea i para l q : (l, q) ∈ preguntas_de i para -> l = i + 1.
Proof.
  unfold preguntas_de. rewrite list_elem_of_In, in_flat_map.
  intros (x & _ & Hx). destruct (nonempty _); simpl in Hx; [|done].
  destruct Hx as [Hx|[]]. congruence.
Qed.

Lemma preguntas_local ref :
  local_body (fun i para => comparar_preguntas (preguntas_de i para) ref).
Proof.
  intros i x e (q & Hq)%comparar_linea. by apply preguntas_de_linea in Hq.
Qed.

End Locality.

(** ** The summary counts the errors by kind *)

Definition ocurrencias (k : str) (errs : list ErrorRecord) : nat :=
  length (filter (fun e => tipo_error e = k) errs).

Definition tipos (errs : list ErrorRecord) : gset str :=
  list_to_set (tipo_error <$> errs).

(** The summary as the data model words it: one entry per kind present
    in the error list, holding the number of errors of that kind. *)
Definition agrupar_por_tipo (errs : list ErrorRecord) : gmap str nat :=
  set_to_map (fun k => (k, ocurrencias k errs)) (tipos errs).

Section Contar.

Definition paso (resumen : gmap str nat) (e : ErrorRecord) : gmap str nat :=
  <[tipo_error e := default 0 (resumen !! tipo_error e) + 1]> resumen.

Lemma contar_foldl errs : contar errs = foldl paso ∅ errs.
Proof. reflexivity. Qed.

Lemma paso_count m errs k :
  default 0 (foldl paso m errs !! k) = default 0 (m !! k) + ocurrencias k errs.
Proof.
  revert m; induction errs as [|e errs IH]; intros m; simpl.
  - unfold ocurrencias. simpl. lia.
  - rewrite IH. unfold paso, ocurrencias.
    destruct (decide (tipo_error e = k)) as [Heq|Hne].
    + rewrite filter_cons_True by done. rewrite Heq, lookup_insert_eq. simpl. lia.
    + rewrite lookup_insert_ne, filter_cons_False by done. done.
Qed.

Lemma paso_dom m errs :
  dom (foldl paso m errs) = dom m ∪ tipos errs.
Proof.
  revert m; induction errs as [|e errs IH]; intros m; simpl.
  - unfold tipos. simpl. set_solver.
  - rewrite IH. unfold paso, tipos. rewrite dom_insert_L. simpl. set_solver.
Qed.

Lemma ocurrencias_pos k errs : k ∈ tipos errs <-> 0 < ocurrencias k errs.
Proof.
  unfold tipos, ocurrencias. rewrite elem_of_list_to_set, list_elem_of_fmap.
  split.
  - intros (e & -> & He). apply list_elem_of_split in He as (l1 & l2 & ->).
    rewrite filter_app, filter_cons_True, length_app by done. simpl. lia.
  - intros Hpos. destruct (filter _ errs) as [|e l] eqn:Hf; [simpl in Hpos; lia|].
    assert (He : e ∈ filter (fun e => tipo_error e = k) errs)
      by (rewrite Hf; left).
    apply list_elem_of_filter in He as [<- He]. by exists e.
Qed.

Lemma contar_dom errs : dom (contar errs) = tipos errs.
Proof. rewrite contar_foldl, paso_dom. set_solver. Qed.

Lemma contar_lookup errs k :
  contar errs !! k =
  if decide (k ∈ tipos errs) then Some (ocurrencias k errs) else None.
Proof.
  pose proof (paso_count ∅ errs k) as Hc. rewrite lookup_empty in Hc. simpl in Hc.
  rewrite <- contar_foldl in Hc.
  destruct (decide _) as [Hin|Hnin].
  - rewrite <- contar_dom in Hin. apply elem_of_dom in Hin as [n Hn].
    rewrite Hn in Hc |- *. simpl in Hc. by subst.
  - rewrite <- contar_dom in Hnin. by apply not_elem_of_dom in Hnin.
Qed.

Lemma contar_agrupar errs : contar errs = agrupar_por_tipo errs.
Proof.
  apply map_eq. intros k. rewrite contar_lookup.
  unfold agrupar_por_tipo. destruct (decide _) as [Hin|Hnin].
  - symmetry. apply lookup_set_to_map; [by intros ?? _ _ [= ->]|].
    by exists k.
  - symmetry. apply eq_None_not_Some. intros [n Hn].
    apply lookup_set_to_map in Hn as (y & Hy & [= -> _]); [done|].
    by intros ?? _ _ [= ->].
Qed.

End Contar.

(** ** The analyzer *)

Section AnalyzerFacts.
Context `{Interp} `{Libs}.

(** the error tuples [analizar_un_docx] collects, in its fixed order *)
Definition errores_de (doc : Document) (preguntas_ref : list str)
    : list ErrorTuple :=
  comparar_preguntas (extraer_preguntas_docx doc) preguntas_ref
  ++ validar_etiquetas_docx doc
  ++ validar_negrita_entrevistador doc
  ++ validar_fuente_tamano doc
  ++ validar_intervencion_vacia doc
  ++ detectar_etiquetas_invalidas doc.

Definition registro (e : ErrorTuple) : ErrorRecord :=
  let '(l, t, d) := e in {| linea := l; tipo_error := t; descripcion := d |}.

Definition resultado_de (nombre : str) (doc : Document) (ref : list str)
    : AnalysisResult :=
  {| archivo := nombre;
     resumen := contar (List.map registro (errores_de doc ref));
     errores := List.map registro (errores_de doc ref) |}.

(** a document that parses is analysed to the end *)
Lemma analizar_un_docx_ok nombre b ref doc t :
  docx_Document b = inr doc ->
  analizar_un_docx nombre b ref t =
  (Ret (resultado_de nombre doc ref), t ++ [EvParseDocx b]).
Proof.
  intros Hdoc. unfold analizar_un_docx, doc_from_bytes, bind, tell, lift, ret.
  by rewrite Hdoc.
Qed.

(** a document that does not parse raises, and nothing is computed *)
Lemma analizar_un_docx_raise nombre b ref e t :
  docx_Document b = inl e ->
  analizar_un_docx nombre b ref t = (Raised e, t ++ [EvParseDocx b]).
Proof.
  intros Hdoc. unfold analizar_un_docx, doc_from_bytes, bind, tell, lift, ret.
  by rewrite Hdoc.
Qed.

Lemma linea_registro e : linea (registro e) = linea_de e.
Proof. by destruct e as [[l k] d]. Qed.

Lemma tipo_registro e : tipo_error (registro e) = tipo_de e.
Proof. by destruct e as [[l k] d]. Qed.

Lemma elem_registro (r : ErrorRecord) (l : list ErrorTuple) :
  r ∈ List.map registro l -> exists e, registro e = r /\ e ∈ l.
Proof.
  induction l as [|e l IH]; simpl; intros Hr.
  - by apply elem_of_nil in Hr.
  - apply elem_of_cons in Hr as [->|Hr].
    + exists e. split; [done|left].
    + destruct (IH Hr) as (x & Hx & Hin). exists x. split; [done|by right].
Qed.

Lemma errores_de_lines doc ref e :
  e ∈ errores_de doc ref -> 1 <= linea_de e <= length (paragraphs doc).
Proof.
  unfold errores_de. rewrite !elem_of_app.
  intros [He|[He|[He|[He|[He|He]]]]].
  - rewrite extraer_unfold, comparar_for_enum in He.
    exact (for_enum_lines _ _ _ (preguntas_local ref) He).
  - eapply for_enum_lines; [apply etiqueta_local|done].
  - eapply for_enum_lines; [apply negrita_local|done].
  - eapply for_enum_lines; [apply fuente_local|done].
  - eapply for_enum_lines; [apply vacia_local|done].
  - eapply for_enum_lines; [apply detectar_local|done].
Qed.

(** C1: the summary of the result of [analizar_un_docx] is the count of
    its error list grouped by kind: it is the grouping of the data
    model, its keys are exactly the kinds that occur among the errors,
    every key holds the number of errors of that kind, and counting the
    returned errors again gives the same summary. *)
Theorem C1_resumen_counts_errors nombre b ref doc t :
  docx_Document b = inr doc ->
  exists r,
    analizar_un_docx nombre b ref t = (Ret r, t ++ [EvParseDocx b])
    /\ resumen r = agrupar_por_tipo (errores r)
    /\ dom (resumen r) = tipos (errores r)
    /\ (forall k, k ∈ tipos (errores r) ->
          resumen r !! k = Some (ocurrencias k (errores r)))
    /\ (forall k, default 0 (resumen r !! k) = ocurrencias k (errores r))
    /\ contar (errores r) = resumen r.
Proof.
  intros Hdoc. exists (resultado_de nombre doc ref).
  split; [by apply analizar_un_docx_ok|]. simpl.
  split; [apply contar_agrupar|].
  split; [apply contar_dom|].
  split; [|split; [|done]].
  - intros k Hk. rewrite contar_lookup. by rewrite decide_True.
  - intros k. rewrite contar_foldl, paso_count. by rewrite lookup_empty.
Qed.

(** C9: every error of the result carries a line between 1 and the
    number of paragraphs of the parsed document. *)
Theorem C9_lines_within_document nombre b ref doc t :
  docx_Document b = inr doc ->
  exists r,
    analizar_un_docx nombre b ref t = (Ret r, t ++ [EvParseDocx b])
    /\ Forall (fun e => 1 <= linea e <= length (paragraphs doc)) (errores r).
Proof.
  intros Hdoc. exists (resultado_de nombre doc ref).
  split; [by apply analizar_un_docx_ok|]. simpl.
  apply Forall_forall. intros e He.
  apply elem_registro in He as (x & <- & Hx).
  rewrite linea_registro. by apply (errores_de_lines doc ref).
Qed.

End AnalyzerFacts.

(** ** Questions *)

(** a document of one paragraph with the given text and runs *)
Definition un_parrafo (texto : str) (rs : list Run) : Document :=
  {| paragraphs := [{| para_text := texto; para_runs := rs |}] |}.

(** the error list of the question check: extractor, then comparison *)
Definition errores_preguntas `{Interp} (doc : Document) (ref : list str)
    : list ErrorTuple :=
  comparar_preguntas (extraer_preguntas_docx doc) ref.

(** C2, as amended: with the reference list holding only the question
    "¿Cómo estás?", the paragraph "Él preguntó: ¿Cómo estás? Bien." gives
    one extracted question, the whole run of text up to the question
    mark, and so exactly one "Pregunta no coincide" error naming that
    run; the paragraph "¿Qué hora es?" gives exactly one such error
    naming that text; the paragraph "¿Cómo estás?" gives none. *)
Theorem C2_question_match_examples `{Interp} (rs : list Run) :
  let ref := [py "¿Cómo estás?"] in
  extraer_preguntas_docx (un_parrafo (py "Él preguntó: ¿Cómo estás? Bien.") rs)
    = [(1, py "Él preguntó: ¿Cómo estás?")]
  /\ errores_preguntas (un_parrafo (py "Él preguntó: ¿Cómo estás? Bien.") rs) ref
    = [(1, K_PREGUNTA,
        py "'Él preguntó: ¿Cómo estás?' no está en la matriz de referencia")]
  /\ errores_preguntas (un_parrafo (py "¿Qué hora es?") rs) ref
    = [(1, K_PREGUNTA, py "'¿Qué hora es?' no está en la matriz de referencia")]
  /\ errores_preguntas (un_parrafo (py "¿Cómo estás?") rs) ref = [].
Proof. split; [|split; [|split]]; vm_compute; reflexivity. Qed.

(** C2 as stated fails: the first document does give a question-match
    error. *)
Lemma C2_counterexample :
  ~ (filter (fun e => tipo_de e = K_PREGUNTA)
       (@errores_preguntas Demo.interp
          (un_parrafo (py "Él preguntó: ¿Cómo estás? Bien.") [])
          [py "¿Cómo estás?"]) = []).
Proof. vm_compute. discriminate. Qed.

(** ** Font and size *)

Section Fuente.
Context `{Interp}.

(** a run whose font name is set, not empty, and not Arial in any case *)
Definition viola_fuente (r : Run) : Prop :=
  exists n, font_name (run_font r) = Some n /\ n <> []
            /\ lower n <> py "arial".

(** a run whose font size is set, not zero, and not 12 points *)
Definition viola_tam (r : Run) : Prop :=
  exists emu, font_size (run_font r) = Some emu /\ emu <> 0%Z
              /\ ~ (pt emu == 12)%Q.

Definition limpio (r : Run) : Prop := ~ viola_fuente r /\ ~ viola_tam r.

Lemma nonempty_spec (s : str) : nonempty s = true <-> s <> [].
Proof. by destruct s. Qed.

Lemma fuente_mal_spec r : fuente_mal (run_font r) = true <-> viola_fuente r.
Proof.
  unfold fuente_mal, viola_fuente, str_eqb.
  destruct (font_name (run_font r)) as [n|].
  - rewrite andb_true_iff, nonempty_spec, negb_true_iff, bool_decide_eq_false.
    split.
    + intros [Hn Hl]. by exists n.
    + by intros (n' & [= <-] & Hn & Hl).
  - split; [done|]. by intros (n & [=] & _).
Qed.

Lemma pt_zero emu : emu <> 0%Z -> Qeq_bool (pt emu) 0 = false.
Proof.
  intros Hne. apply not_true_is_false. intros Heq%Qeq_bool_iff.
  unfold pt, Qeq in Heq. simpl in Heq. lia.
Qed.

Lemma tam_mal_spec r : tam_mal (run_font r) = true <-> viola_tam r.
Proof.
  unfold tam_mal, tam_of, viola_tam.
  destruct (font_size (run_font r)) as [emu|].
  - destruct (Z.eqb_spec emu 0) as [->|Hne].
    + split; [done|]. by intros (emu & [= <-] & Hne & _).
    + rewrite pt_zero by done. simpl. rewrite negb_true_iff.
      rewrite <- not_true_iff_false, Qeq_bool_iff. split.
      * intros Hq. by exists emu.
      * by intros (emu' & [= <-] & _ & Hq).
  - split; [done|]. by intros (emu & [=] & _).
Qed.

Lemma revisar_runs_skip i rs1 rest :
  Forall limpio rs1 -> revisar_runs i (rs1 ++ rest) = revisar_runs i rest.
Proof.
  induction 1 as [|r rs1 [Hf Ht] _ IH]; [done|]. simpl.
  destruct (fuente_mal _) eqn:Ef; [by apply fuente_mal_spec in Ef|].
  destruct (tam_mal _) eqn:Et; [by apply tam_mal_spec in Et|]. done.
Qed.

Lemma validar_fuente_linea doc i para :
  paragraphs doc !! i = Some para ->
  filter (fun e => linea_de e = i + 1) (validar_fuente_tamano doc)
  = revisar_runs i (para_runs para).
Proof.
  intros Hi. rewrite fuente_unfold.
  by rewrite (for_enum_filter _ _ _ _ fuente_local Hi).
Qed.

Lemma validar_fuente_a_lo_mas_uno doc j :
  length (filter (fun e => linea_de e = j) (validar_fuente_tamano doc)) <= 1.
Proof.
  destruct j as [|i].
  - rewrite filter_none; [simpl; lia|]. apply Forall_forall.
    intros e He%(for_enum_lines _ _ _ fuente_local). lia.
  - replace (S i) with (i + 1) by lia. rewrite fuente_unfold.
    rewrite for_enum_filter_from by (apply fuente_local || lia).
    destruct (_ !! _); [apply revisar_runs_length|simpl; lia].
Qed.

(** C6, as amended: the font and size check reports at most one error
    per line.  For a paragraph whose runs begin with runs that break
    neither rule: if no run follows, nothing is reported for it; if the
    next run has a font name that is set, not empty and not Arial in
    any case, exactly one "Fuente incorrecta" error is reported,
    whatever the later runs are; if instead its size is set, not zero
    and not 12 points, exactly one "Tamaño incorrecto" error is
    reported, whatever the later runs are.  The same holds for every
    paragraph of the document. *)
Theorem C6_first_violation_per_paragraph doc i para rs1 rest :
  paragraphs doc !! i = Some para ->
  para_runs para = rs1 ++ rest ->
  Forall limpio rs1 ->
  let errs := filter (fun e => linea_de e = i + 1) (validar_fuente_tamano doc) in
  (forall j, length (filter (fun e => linea_de e = j) (validar_fuente_tamano doc)) <= 1)
  /\ (rest = [] -> errs = [])
  /\ (forall r rs2 n, rest = r :: rs2 -> viola_fuente r ->
        font_name (run_font r) = Some n ->
        errs = [(i + 1, K_FUENTE, py "'" ++ n ++ py "' en vez de Arial")])
  /\ (forall r rs2 emu, rest = r :: rs2 -> ~ viola_fuente r -> viola_tam r ->
        font_size (run_font r) = Some emu ->
        errs = [(i + 1, K_TAMANO, float_str (pt emu) ++ py "pt en vez de 12pt")]).
Proof.
  intros Hi Hruns Hclean errs. subst errs.
  rewrite (validar_fuente_linea _ _ _ Hi), Hruns, revisar_runs_skip by done.
  split; [apply validar_fuente_a_lo_mas_uno|].
  split; [by intros ->|]. split.
  - intros r rs2 n -> Hv%fuente_mal_spec Hn. simpl. by rewrite Hv, Hn.
  - intros r rs2 emu -> Hf Ht Hemu. simpl.
    destruct (fuente_mal _) eqn:Ef; [by apply fuente_mal_spec in Ef|].
    pose proof Ht as Ht'. apply tam_mal_spec in Ht' as ->.
    unfold tam_of. rewrite Hemu. destruct Ht as (emu' & Hemu' & Hne & _).
    rewrite Hemu in Hemu'. injection Hemu' as <-.
    by destruct (Z.eqb_spec emu 0).
Qed.

End Fuente.

(** C6 as stated fails where "set" is read literally: a run whose size
    is set to zero differs from 12 points, and nothing is reported. *)
Lemma C6_counterexample :
  let r := {| run_text := py "hola"; run_bold := None;
              run_font := {| font_name := None; font_size := Some 0%Z |} |} in
  ~ (forall emu, font_size (run_font r) = Some emu -> ~ (pt emu == 12)%Q ->
       exists d, @validar_fuente_tamano Demo.interp (un_parrafo (py "hola") [r])
                 = [(1, K_TAMANO, d)]).
Proof.
  intros r Hall. destruct (Hall 0%Z) as [d Hd]; [done|by vm_compute|].
  vm_compute in Hd. discriminate.
Qed.

(** ** A paragraph that is only the label ENTREVISTADO *)

Section SoloEtiqueta.
Context `{Interp} `{Libs}.

Definition vacia_error (i : nat) : ErrorTuple :=
  (i + 1, K_VACIA, py "Debe ir junto al texto, sin salto de línea").

Lemma filter_registro (j : nat) (l : list ErrorTuple) :
  filter (fun e => linea e = j) (List.map registro l)
  = List.map registro (filter (fun e => linea_de e = j) l).
Proof.
  induction l as [|e l IH]; [done|]. simpl.
  rewrite !filter_cons, linea_registro, IH. by destruct (decide _).
Qed.

Lemma entrevistado_preguntas i rs ref :
  comparar_preguntas
    (preguntas_de i {| para_text := py "ENTREVISTADO:"; para_runs := rs |}) ref
  = [].
Proof. vm_compute. reflexivity. Qed.

Lemma entrevistado_etiqueta i rs :
  etiqueta_de i {| para_text := py "ENTREVISTADO:"; para_runs := rs |} = [].
Proof. vm_compute. reflexivity. Qed.

Lemma entrevistado_negrita i rs :
  negrita_de i {| para_text := py "ENTREVISTADO:"; para_runs := rs |} = [].
Proof. vm_compute. reflexivity. Qed.

Lemma entrevistado_strip : strip (py "ENTREVISTADO:") = py "ENTREVISTADO:".
Proof. vm_compute. reflexivity. Qed.

Lemma entrevistado_vacia :
  re_match false patron_intervencion_vacia (py "ENTREVISTADO:") <> None.
Proof. vm_compute. discriminate. Qed.

(** what [analizar_un_docx] reports for the line of such a paragraph *)
Lemma entrevistado_linea doc ref i para :
  paragraphs doc !! i = Some para ->
  para_text para = py "ENTREVISTADO:" ->
  filter (fun e => linea_de e = i + 1) (errores_de doc ref)
  = revisar_runs i (para_runs para)
    ++ [vacia_error i]
    ++ primer_patron i (py "ENTREVISTADO:") ETIQUETAS_INVALIDAS_PATRONES.
Proof.
  intros Hi Htext. unfold errores_de. rewrite !filter_app.
  rewrite extraer_unfold, comparar_for_enum, etiquetas_unfold.
  rewrite (for_enum_filter _ _ _ _ (preguntas_local ref) Hi).
  rewrite (for_enum_filter _ _ _ _ etiqueta_local Hi).
  rewrite negrita_unfold, fuente_unfold, vacia_unfold, detectar_unfold.
  rewrite (for_enum_filter _ _ _ _ negrita_local Hi).
  rewrite (for_enum_filter _ _ _ _ fuente_local Hi).
  rewrite (for_enum_filter _ _ _ _ vacia_local Hi).
  rewrite (for_enum_filter _ _ _ _ detectar_local Hi).
  destruct para as [txt rs]. simpl in Htext. subst txt.
  rewrite entrevistado_preguntas, entrevistado_etiqueta, entrevistado_negrita.
  unfold fuente_de, vacia_de, detectar_de. cbn [para_text para_runs].
  rewrite entrevistado_strip.
  destruct (re_match false _ _) eqn:Em; [|by apply entrevistado_vacia in Em].
  reflexivity.
Qed.

Lemma revisar_runs_tipo i rs e :
  e ∈ revisar_runs i rs -> tipo_de e = K_FUENTE \/ tipo_de e = K_TAMANO.
Proof.
  induction rs as [|r rs IH]; simpl; intros He.
  - by apply elem_of_nil in He.
  - destruct (fuente_mal _);
      [apply list_elem_of_singleton in He; subst; by left|].
    destruct (tam_mal _);
      [apply list_elem_of_singleton in He; subst; by right|].
    by apply IH.
Qed.

Lemma primer_patron_tipo i texto pats e :
  e ∈ primer_patron i texto pats -> tipo_de e = K_ETIQUETA.
Proof.
  induction pats as [|[patron r] pats IH]; simpl; intros He.
  - by apply elem_of_nil in He.
  - destruct (re_search _ _ _);
      [by apply list_elem_of_singleton in He; subst|]. by apply IH.
Qed.

(** C3, as amended: when a paragraph's text is exactly "ENTREVISTADO:",
    the errors of the result on that paragraph's line are, in order,
    what the font and size check reports for the paragraph's runs (at
    most one error, of kind "Fuente incorrecta" or "Tamaño incorrecto"),
    then one "Intervención vacía tras etiqueta" error, then what the
    invalid-label pattern detector reports for the text.  Exactly one
    error on that line has kind "Intervención vacía tras etiqueta", and
    none has kind "Pregunta no coincide", "Encabezado sin negrita" or
    "Formato en negrita". *)
Theorem C3_entrevistado_alone nombre b ref doc t i para :
  docx_Document b = inr doc ->
  paragraphs doc !! i = Some para ->
  para_text para = py "ENTREVISTADO:" ->
  exists r,
    analizar_un_docx nombre b ref t = (Ret r, t ++ [EvParseDocx b])
    /\ filter (fun e => linea e = i + 1) (errores r)
       = List.map registro
           (revisar_runs i (para_runs para)
            ++ [vacia_error i]
            ++ primer_patron i (py "ENTREVISTADO:") ETIQUETAS_INVALIDAS_PATRONES)
    /\ length (revisar_runs i (para_runs para)) <= 1
    /\ length (filter (fun e => tipo_error e = K_VACIA)
                 (filter (fun e => linea e = i + 1) (errores r))) = 1
    /\ Forall (fun e => linea e = i + 1 ->
                 tipo_error e <> K_PREGUNTA /\ tipo_error e <> K_ENCABEZADO
                 /\ tipo_error e <> K_NEGRITA) (errores r).
Proof.
  intros Hdoc Hi Htext. exists (resultado_de nombre doc ref).
  split; [by apply analizar_un_docx_ok|]. simpl.
  assert (Hline := entrevistado_linea doc ref i para Hi Htext).
  rewrite filter_registro, Hline.
  split; [done|]. split; [apply revisar_runs_length|].
  assert (Hkinds : forall e,
    e ∈ revisar_runs i (para_runs para) ++ [vacia_error i]
        ++ primer_patron i (py "ENTREVISTADO:") ETIQUETAS_INVALIDAS_PATRONES ->
    tipo_de e = K_FUENTE \/ tipo_de e = K_TAMANO \/ e = vacia_error i
    \/ tipo_de e = K_ETIQUETA).
  { intros e. rewrite !elem_of_app, list_elem_of_singleton.
    intros [He|[He|He]].
    - apply revisar_runs_tipo in He as [He|He]; [by left|by right; left].
    - by right; right; left.
    - apply primer_patron_tipo in He. by right; right; right. }
  split.
  - rewrite !map_app, !filter_app, !length_app.
    rewrite (filter_none _ (List.map registro (revisar_runs _ _))).
    2:{ apply Forall_forall. intros e (x & <- & Hx)%elem_registro.
        rewrite tipo_registro.
        apply revisar_runs_tipo in Hx as [->| ->]; by vm_compute. }
    rewrite (filter_none _ (List.map registro (primer_patron _ _ _))).
    2:{ apply Forall_forall. intros e (x & <- & Hx)%elem_registro.
        rewrite tipo_registro.
        apply primer_patron_tipo in Hx as ->; by vm_compute. }
    reflexivity.
  - apply Forall_forall.
    intros e (x & <- & Hx)%elem_registro Hl.
    rewrite linea_registro in Hl. rewrite tipo_registro.
    assert (Hx' : x ∈ filter (fun e => linea_de e = i + 1) (errores_de doc ref))
      by (by apply list_elem_of_filter).
    rewrite Hline in Hx'. apply Hkinds in Hx' as [->|[->|[->| ->]]];
      by vm_compute.
Qed.

End SoloEtiqueta.

(** C3 as stated fails: a bare ENTREVISTADO label typed in Times New
    Roman also gets a "Fuente incorrecta" error on its line. *)
Lemma C3_counterexample :
  let r := {| run_text := py "ENTREVISTADO:"; run_bold := None;
              run_font := {| font_name := Some (py "Times New Roman");
                             font_size := None |} |} in
  let doc := un_parrafo (py "ENTREVISTADO:") [r] in
  ~ (forall e,
       e ∈ errores (@resultado_de Demo.interp (py "acta.docx") doc []) ->
       linea e = 1 -> tipo_error e = K_VACIA).
Proof.
  intros r doc Hall.
  specialize (Hall {| linea := 1; tipo_error := K_FUENTE;
                      descripcion := py "'Times New Roman' en vez de Arial" |}).
  assert (Hk : K_FUENTE = K_VACIA); [|vm_compute in Hk; discriminate].
  apply Hall; [|reflexivity]. vm_compute. left.
Qed.

(** ** Matching, step by step *)

Section ReFacts.
Context `{Interp}.

(** the text begins with the literal word [w] of a pattern *)
Fixpoint lit_ok (ic : bool) (w s : str) : bool :=
  match w, s with
  | [], _ => true
  | p :: w', c :: s' => cs_in ic (CChar p) c && lit_ok ic w' s'
  | _ :: _, [] => false
  end.

(** the cursor after the characters of [w] have been consumed *)
Fixpoint tras (w : str) (st : mstate) : mstate :=
  match w, m_rest st with
  | _ :: w', c :: s' => tras w' (MState (Some c) (S (m_pos st)) s' (m_grp st))
  | _, _ => st
  end.

Lemma mt_lit {R} ic w st (k : mstate -> option R) :
  mt ic (lit w) st k = if lit_ok ic w (m_rest st) then k (tras w st) else None.
Proof.
  revert st; induction w as [|p w IH]; intros st; [by destruct st|].
  change (lit (p :: w)) with (RSeq (RChar (CChar p)) (lit w)).
  destruct st as [prev pos [|c s] g]; cbn [mt m_rest lit_ok tras]; [done|].
  destruct (cs_in ic (CChar p) c); [|done]. apply IH.
Qed.

(** a greedy repetition can always stop where its continuation succeeds *)
Lemma rep_stop {R} ic cs g prev pos s (k : mstate -> option R) :
  is_Some (k (MState prev pos s g)) -> is_Some (rep ic cs 0 g prev pos s k).
Proof.
  intros Hk. destruct s as [|c s]; simpl; [done|].
  destruct (cs_in ic cs c); [|done]. by destruct (rep _ _ _ _ _ _ _ _).
Qed.

(** the character before the cursor once [l] has been passed *)
Fixpoint ultimo (prev : option N) (l : str) : option N :=
  match l with
  | [] => prev
  | c :: l' => ultimo (Some c) l'
  end.

Lemma ultimo_cons prev c l : ultimo prev (c :: l) = ultimo (Some c) l.
Proof. reflexivity. Qed.

Lemma ultimo_last l : ultimo None l = last l.
Proof.
  assert (Hgen : forall prev,
    ultimo prev l = match last l with Some c => Some c | None => prev end).
  { induction l as [|c l IH]; intros prev; [done|]. simpl. rewrite IH.
    destruct l as [|d l]; [done|]. rewrite last_cons_cons.
    destruct (last (d :: l)) eqn:El; [done|]. by apply last_None in El. }
  rewrite Hgen. by destruct (last l).
Qed.

(** ... and runs over the characters of its class on the way there *)
Lemma rep_over {R} ic cs g prev pos l s (k : mstate -> option R) :
  Forall (fun c => cs_in ic cs c = true) l ->
  is_Some (k (MState (ultimo prev l) (pos + length l) s g)) ->
  is_Some (rep ic cs 0 g prev pos (l ++ s) k).
Proof.
  intros Hl. revert prev pos; induction Hl as [|c l Hc _ IH]; intros prev pos Hk.
  - apply rep_stop. by rewrite Nat.add_0_r in Hk.
  - simpl. rewrite Hc. rewrite ultimo_cons in Hk.
    replace (pos + length (c :: l)) with (S pos + length l) in Hk by (simpl; lia).
    apply IH in Hk. by destruct Hk as [x ->].
Qed.

(** a search succeeds when a match starts somewhere in the text *)
Lemma search_from_found ic r prev pos pre rest :
  is_Some (match_at ic r (MState (ultimo prev pre) (pos + length pre) rest None)) ->
  is_Some (search_from ic r prev pos (pre ++ rest)).
Proof.
  revert prev pos; induction pre as [|c pre IH]; intros prev pos Hm.
  - simpl in Hm. rewrite Nat.add_0_r in Hm. destruct Hm as [x Hx].
    destruct rest; simpl; by rewrite Hx.
  - simpl. destruct (match_at ic r (MState prev pos (c :: pre ++ rest) None)); [eauto|].
    apply IH.
    rewrite ultimo_cons in Hm.
    by replace (pos + length (c :: pre)) with (S pos + length pre) in Hm
      by (simpl; lia).
Qed.

Definition az : cset := CRange 97 122.

Lemma stem_pat_match w st :
  match_at true (stem_pat w) st =
  if at_boundary st then
    if lit_ok true (py w) (m_rest st) then
      let st0 := tras (py w) st in
      rep true az 0 (m_grp st0) (m_prev st0) (m_pos st0) (m_rest st0)
        (fun st1 => if at_boundary st1 then Some st1 else None)
    else None
  else None.
Proof.
  unfold match_at, stem_pat, word_pat. cbn [mt].
  destruct (at_boundary st); [|done]. by rewrite mt_lit.
Qed.

End ReFacts.

(** ** The invalid-label pattern detector *)

Section Detector.
Context `{Interp}.

Definition aviso_patron (patron : str) : str :=
  py "Se encontró coincidencia con patrón: " ++ patron.

(** the detector reports the paragraph once as soon as one pattern is
    found in it *)
Lemma primer_patron_hit i texto pats :
  (exists p r, (p, r) ∈ pats /\ is_Some (re_search true r texto)) ->
  exists patron, patron ∈ pats.*1
    /\ primer_patron i texto pats = [(i + 1, K_ETIQUETA, aviso_patron patron)].
Proof.
  induction pats as [|[p0 r0] pats IH]; intros (p & r & Hin & Hs).
  - by apply elem_of_nil in Hin.
  - simpl. destruct (re_search true r0 texto) eqn:E.
    + exists p0. split; [left|done].
    + apply elem_of_cons in Hin as [[= -> ->]|Hin];
        [rewrite E in Hs; by destruct Hs|].
      destruct IH as (patron & Hp & ->); [eauto|].
      exists patron. split; [by right|done].
Qed.

Definition sufijos_r : list str := [[]; py "R"; py "RA"].

Lemma stem_entrevistado prev pos l post :
  word_opt prev = false ->
  l ∈ sufijos_r ->
  word_opt (head post) = false ->
  is_Some (match_at true (stem_pat "Entrevistado")
             (MState prev pos (py "ENTREVISTADO" ++ l ++ post) None)).
Proof.
  intros Hprev Hl Hpost. rewrite stem_pat_match.
  unfold at_boundary at 1. cbn [m_prev m_rest]. rewrite Hprev.
  set (texto := py "ENTREVISTADO" ++ l ++ post).
  assert (Hw : word_opt (head texto) = true) by (by vm_compute).
  assert (Hlit : lit_ok true (py "Entrevistado") texto = true) by (by vm_compute).
  assert (Htras : tras (py "Entrevistado") (MState prev pos texto None)
                  = MState (Some 79%N) (12 + pos) (l ++ post) None)
    by (by vm_compute).
  rewrite Hw, Hlit, Htras. cbn [xorb m_grp m_prev m_pos m_rest].
  apply rep_over.
  - unfold sufijos_r in Hl.
    repeat (apply elem_of_cons in Hl as [->|Hl]);
      [..|by apply elem_of_nil in Hl]; repeat constructor; by vm_compute.
  - unfold at_boundary. cbn [m_prev m_rest]. rewrite Hpost.
    unfold sufijos_r in Hl.
    repeat (apply elem_of_cons in Hl as [->|Hl]);
      [..|by apply elem_of_nil in Hl]; vm_compute; eauto.
Qed.

(** C4, as amended: when the stripped text of a paragraph contains
    ENTREVISTADOR, ENTREVISTADORA or ENTREVISTADO as a whole word (no
    word character right before or right after it), the invalid-label
    pattern detector reports exactly one "Etiqueta inválida" error for
    that paragraph, naming one of its patterns.  A paragraph that is
    only the fourth label, ENTREVISTADA, and a colon is not reported. *)
Theorem C4_valid_labels_flagged doc i para pre L post :
  paragraphs doc !! i = Some para ->
  L ∈ [py "ENTREVISTADOR"; py "ENTREVISTADORA"; py "ENTREVISTADO"] ->
  strip (para_text para) = pre ++ L ++ post ->
  word_opt (last pre) = false ->
  word_opt (head post) = false ->
  (exists patron, patron ∈ ETIQUETAS_INVALIDAS_PATRONES.*1
     /\ filter (fun e => linea_de e = i + 1) (detectar_etiquetas_invalidas doc)
        = [(i + 1, K_ETIQUETA, aviso_patron patron)])
  /\ (forall rs, detectar_etiquetas_invalidas (un_parrafo (py "ENTREVISTADA:") rs) = []).
Proof.
  intros Hi HL Htext Hpre Hpost. split; [|intros rs; by vm_compute].
  rewrite detectar_unfold, (for_enum_filter _ _ _ _ detectar_local Hi).
  unfold detectar_de. rewrite Htext.
  apply primer_patron_hit.
  exists (py "\bEntrevistado[a-z]*\b"), (stem_pat "Entrevistado"). split.
  { unfold ETIQUETAS_INVALIDAS_PATRONES. do 4 right. left. }
  assert (exists l, l ∈ sufijos_r /\ L = py "ENTREVISTADO" ++ l) as (l & Hl & ->).
  { repeat (apply elem_of_cons in HL as [->|HL]);
      [exists (py "R")|exists (py "RA")|exists []|by apply elem_of_nil in HL];
      (split; [unfold sufijos_r; set_solver|by vm_compute]). }
  unfold re_search. apply search_from_found. rewrite ultimo_last.
  rewrite <- app_assoc. by apply stem_entrevistado.
Qed.

End Detector.

(** C4 as stated fails for the fourth label: the text contains
    ENTREVISTADA and the detector reports nothing. *)
Lemma C4_counterexample :
  ~ (contains (py "ENTREVISTADA: hola") (py "ENTREVISTADA") = true ->
     str_in (py "ENTREVISTADA") ETIQUETAS_VALIDAS = true ->
     length (@detectar_etiquetas_invalidas Demo.interp
               (un_parrafo (py "ENTREVISTADA: hola") [])) = 1).
Proof. intros Hc. vm_compute in Hc. specialize (Hc eq_refl eq_refl). discriminate. Qed.

(** ** The batch endpoint *)

Section Endpoint.
Context `{Interp} `{Libs}.

(** [check_token] lets the request through *)
Definition autorizado (x_token : option str) : Prop :=
  match API_TOKEN with
  | None => True
  | Some tok => x_token = Some tok
  end.

Definition es_xlsx (f : UploadFile) : bool :=
  endswith (lower (filename f)) (py ".xlsx").

(** the documents the endpoint keeps: those named .docx, the first
    [MAX_DOCX] of them *)
Definition aceptados (documentos : list UploadFile) : list UploadFile :=
  take MAX_DOCX (List.filter es_docx documentos).

(** what analysing one accepted file adds to the log *)
Definition traza_docx (f : UploadFile) : list event :=
  [EvRead f; EvParseDocx (content f)].

Lemma check_token_ok x_token t :
  autorizado x_token -> check_token x_token t = (Ret tt, t).
Proof.
  unfold autorizado, check_token. destruct API_TOKEN as [tok|]; [|done].
  intros ->. by rewrite bool_decide_eq_true_2.
Qed.

Lemma check_token_log x_token t : (check_token x_token t).2 = t.
Proof.
  unfold check_token. destruct API_TOKEN as [tok|]; [|done].
  by destruct (bool_decide _).
Qed.

Lemma truncar (l : list UploadFile) :
  (if Nat.ltb MAX_DOCX (length l) then take MAX_DOCX l else l) = take MAX_DOCX l.
Proof.
  destruct (Nat.ltb_spec MAX_DOCX (length l)); [done|].
  by rewrite take_ge.
Qed.

Lemma analizar_cada_uno_ok fs docs ref acc t :
  Forall2 (fun f d => docx_Document (content f) = inr d) fs docs ->
  analizar_cada_uno fs ref acc t =
  (Ret (acc ++ zip_with (fun f d => resultado_de (filename f) d ref) fs docs),
   t ++ flat_map traza_docx fs).
Proof.
  intros Hall. revert acc t.
  induction Hall as [|f d fs docs Hd _ IH]; intros acc t; simpl.
  - by rewrite !app_nil_r.
  - unfold bind at 1, read, bind at 1, tell, ret.
    unfold bind at 1.
    rewrite (analizar_un_docx_ok _ _ _ d) by done.
    rewrite IH, <- !app_assoc. reflexivity.
Qed.

Lemma hay_docx (l : list UploadFile) : l <> [] -> Nat.eqb (length l) 0 = false.
Proof. destruct l; [intros Hl; exfalso; by apply Hl|reflexivity]. Qed.

(** the endpoint before anything is read: the two extension checks *)
Lemma analyze_endpoint_sin_docx documentos excel x_token t :
  autorizado x_token ->
  List.filter es_docx documentos = [] ->
  analyze_endpoint documentos excel x_token t =
  (Ret (JSONResponse 400 false (py "Debes adjuntar al menos un .docx")), t).
Proof.
  intros Hok Hnone. unfold analyze_endpoint, bind.
  rewrite check_token_ok by done. rewrite Hnone. reflexivity.
Qed.

Lemma analyze_endpoint_sin_xlsx documentos excel x_token t :
  autorizado x_token ->
  List.filter es_docx documentos <> [] ->
  es_xlsx excel = false ->
  analyze_endpoint documentos excel x_token t =
  (Ret (JSONResponse 400 false (py "Debes adjuntar un .xlsx de preguntas")), t).
Proof.
  intros Hok Hsome Hx. unfold analyze_endpoint, bind.
  rewrite check_token_ok by done.
  rewrite hay_docx by done. unfold es_xlsx in Hx. rewrite Hx. reflexivity.
Qed.

Lemma analyze_endpoint_rechazo_log documentos excel x_token t :
  List.filter es_docx documentos = [] \/ es_xlsx excel = false ->
  (analyze_endpoint documentos excel x_token t).2 = t.
Proof.
  intros Hrej. unfold analyze_endpoint, bind.
  pose proof (check_token_log x_token t) as Hlog.
  destruct (check_token x_token t) as [[[]| |] t']; cbn [snd] in Hlog; subst t';
    [|reflexivity..].
  destruct (List.filter es_docx documentos) as [|f fs] eqn:Ef; [reflexivity|].
  destruct Hrej as [Hnone|Hx]; [discriminate Hnone|].
  cbn [length Nat.eqb]. unfold es_xlsx in Hx. rewrite Hx. reflexivity.
Qed.

(** C7: when the request is let through, the reference file is a .xlsx
    that [pandas] reads, and the kept documents parse, the endpoint
    answers with one result per kept document, in input order: the kept
    documents are those named .docx (in any case), cut to the first 10;
    exactly these are read and parsed, after the reference file; each
    result is the analysis of its document against the reference list;
    12 documents named .docx give 10 results. *)
Theorem C7_batch_truncated_to_ten documentos excel x_token df docs t :
  autorizado x_token ->
  List.filter es_docx documentos <> [] ->
  es_xlsx excel = true ->
  pd_read_excel_C (content excel) = inr df ->
  Forall2 (fun f d => docx_Document (content f) = inr d) (aceptados documentos) docs ->
  let ref := List.map cell_str (omap id df) in
  let resultados :=
    zip_with (fun f d => resultado_de (filename f) d ref) (aceptados documentos) docs in
  analyze_endpoint documentos excel x_token t =
    (Ret (AnalyzeResponse true (length resultados) resultados),
     t ++ [EvRead excel; EvParseXlsx (content excel)]
       ++ flat_map traza_docx (aceptados documentos))
  /\ length resultados = Nat.min 10 (length (List.filter es_docx documentos))
  /\ List.map archivo resultados = List.map filename (aceptados documentos)
  /\ (length (List.filter es_docx documentos) = 12 -> length resultados = 10)
  /\ Forall2 (fun f r => forall t',
        analizar_un_docx (filename f) (content f) ref t'
        = (Ret r, t' ++ [EvParseDocx (content f)]))
       (aceptados documentos) resultados.
Proof.
  intros Hok Hsome Hx Hdf Hdocs ref resultados.
  assert (Hlen : length resultados = length (aceptados documentos)).
  { unfold resultados. rewrite length_zip_with.
    apply Forall2_length in Hdocs. lia. }
  split; [|split; [|split; [|split]]].
  - unfold analyze_endpoint, bind at 1.
    rewrite check_token_ok by done.
    rewrite hay_docx by done. unfold es_xlsx in Hx. rewrite Hx. cbn [negb].
    rewrite truncar. fold (aceptados documentos).
    unfold bind at 1, read, bind at 1, tell, ret.
    unfold bind at 1, read_excel_questions, bind at 1, tell.
    unfold bind at 1, lift. rewrite Hdf. unfold ret at 1.
    unfold bind. rewrite (analizar_cada_uno_ok _ docs) by done.
    unfold ret, resultados. cbn [app].
    by rewrite <- !app_assoc.
  - rewrite Hlen. unfold aceptados, MAX_DOCX. by rewrite length_take.
  - unfold resultados. clear Hlen. induction Hdocs as [|f d fs ds _ _ IH]; [done|].
    simpl. by rewrite IH.
  - intros H12. rewrite Hlen. unfold aceptados, MAX_DOCX.
    rewrite length_take. lia.
  - unfold resultados. clear Hlen.
    induction Hdocs as [|f d fs ds Hd _ IH]; simpl; constructor; [|done].
    intros t'. by apply analizar_un_docx_ok.
Qed.

(** C8: when no input file is named .docx, or the reference file is not
    named .xlsx, the endpoint adds nothing to the log: no file is read
    and no spreadsheet is parsed.  If the request is let through, the
    answer is the 400 response: the one asking for a .docx when no
    document is named .docx, otherwise the one asking for a .xlsx. *)
Theorem C8_rejected_before_reading documentos excel x_token t :
  List.filter es_docx documentos = [] \/ es_xlsx excel = false ->
  (analyze_endpoint documentos excel x_token t).2 = t
  /\ (autorizado x_token ->
      (List.filter es_docx documentos = [] ->
         analyze_endpoint documentos excel x_token t =
         (Ret (JSONResponse 400 false (py "Debes adjuntar al menos un .docx")), t))
      /\ (List.filter es_docx documentos <> [] ->
         analyze_endpoint documentos excel x_token t =
         (Ret (JSONResponse 400 false (py "Debes adjuntar un .xlsx de preguntas")), t))).
Proof.
  intros Hrej. split; [by apply analyze_endpoint_rechazo_log|].
  intros Hok. split.
  - intros Hnone. by apply analyze_endpoint_sin_docx.
  - intros Hsome. destruct Hrej as [Hnone|Hx]; [exfalso; by apply Hsome|].
    by apply analyze_endpoint_sin_xlsx.
Qed.

End Endpoint.

(** ** Where the empty-intervention pattern matches *)

Section PatronVacia.
Context `{Interp}.

Definition espacio (c : N) : Prop := isspace c = true.

Lemma lit_ok_prefix w s :
  lit_ok false w s = true <-> exists s', s = w ++ s'.
Proof.
  revert s; induction w as [|p w IH]; intros s; simpl.
  - split; [by exists s|done].
  - destruct s as [|c s]; [split; [done|by intros (s' & [=])]|].
    unfold cs_in. cbn [cs_compiled].
    rewrite andb_true_iff, N.eqb_eq, IH. split.
    + intros [-> (s' & ->)]. by exists s'.
    + intros (s' & [= -> ->]). split; [done|by exists s'].
Qed.

Lemma tras_app w prev pos s' g :
  tras w (MState prev pos (w ++ s') g)
  = MState (ultimo prev w) (pos + length w) s' g.
Proof.
  revert prev pos; induction w as [|c w IH]; intros prev pos; simpl.
  - destruct s'; by rewrite Nat.add_0_r.
  - rewrite IH. f_equal. lia.
Qed.

(** [\s*$]: the rest of the text is white space *)
Lemma resto_en_blanco g prev pos s :
  is_Some (rep false CSpace 0 g prev pos s
             (fun st => if at_end (m_rest st) then Some st else None))
  <-> Forall espacio s.
Proof.
  revert prev pos; induction s as [|c s IH]; intros prev pos.
  - simpl. split; [constructor|eauto].
  - cbn [rep]. unfold cs_in. cbn [cs_compiled pred].
    destruct (isspace c) eqn:Ec.
    + destruct (rep false CSpace 0 g (Some c) (S pos) s _) as [x|] eqn:Er.
      * split; [intros _|eauto]. constructor; [done|].
        apply (IH (Some c) (S pos)). rewrite Er. eauto.
      * cbn [m_rest]. destruct s as [|d s].
        -- simpl in Er. discriminate Er.
        -- cbn [at_end]. split; [by intros [x Hx]|].
           intros Hall. apply Forall_cons in Hall as [_ Hall].
           apply (IH (Some c) (S pos)) in Hall. rewrite Er in Hall.
           by destruct Hall.
    + cbn [m_rest]. split.
      * intros [x Hx]. destruct s as [|d s]; cbn [at_end] in Hx; [|done].
        destruct (N.eqb_spec c 10) as [->|]; [|done]. by vm_compute in Ec.
      * intros Hall. apply Forall_cons in Hall as [Hc _].
        unfold espacio in Hc. congruence.
Qed.

Definition etiquetas_del_patron : list str :=
  [py "ENTREVISTADO"; py "ENTREVISTADA"; py "ENTREVISTADORO"; py "ENTREVISTADORA"].

(** one alternative of the group, followed by the rest of the pattern *)
Definition rama (w s : str) : option mstate :=
  mt false (RSeq (lit w) (RChar O_or_A)) (MState None 0 s None)
    (fun st1 =>
       mt false (RSeq (RChar (CChar 58)) (RSeq (RRep CSpace 0) REol))
          (MState (m_prev st1) (m_pos st1) (m_rest st1) (Some (0, m_pos st1)))
          Some).

Lemma vacia_ramas s :
  re_match false patron_intervencion_vacia s =
  match rama (py "ENTREVISTAD") s with
  | Some x => Some x
  | None => rama (py "ENTREVISTADOR") s
  end.
Proof. reflexivity. Qed.

Lemma rama_spec w s :
  is_Some (rama w s) <->
  exists c ws, (c = 79 \/ c = 65)%N /\ s = w ++ c :: 58%N :: ws
               /\ Forall espacio ws.
Proof.
  unfold rama. cbn [mt]. rewrite mt_lit. cbn [m_rest].
  destruct (lit_ok false w s) eqn:Ew.
  - apply lit_ok_prefix in Ew as [s' ->]. rewrite tras_app.
    cbn [m_rest m_prev m_pos m_grp].
    destruct s' as [|c s'].
    { split; [by intros [x Hx]|]. intros (c & ws & _ & Hs & _).
      apply app_inv_head in Hs. discriminate Hs. }
    unfold cs_in, O_or_A. cbn [cs_compiled].
    destruct s' as [|c0 s'].
    { split; [destruct (_ || _); by intros [x Hx]|].
      intros (c' & ws & _ & Hs & _). apply app_inv_head in Hs. discriminate Hs. }
    split.
    + destruct ((c =? 79)%N || (c =? 65)%N) eqn:Ec; [|by intros [x Hx]].
      destruct (N.eqb_spec c0 58) as [->|]; [|by intros [x Hx]].
      intros Hrep%resto_en_blanco. exists c, s'.
      apply orb_true_iff in Ec. rewrite !N.eqb_eq in Ec. done.
    + intros (c' & ws & Hc & Hs & Hws).
      apply app_inv_head in Hs. injection Hs as -> -> ->.
      replace ((c' =? 79)%N || (c' =? 65)%N) with true
        by (destruct Hc as [->| ->]; reflexivity).
      rewrite N.eqb_refl. by apply resto_en_blanco.
  - split; [by intros [x Hx]|]. intros (c & ws & _ & -> & _).
    assert (Hp : lit_ok false w (w ++ c :: 58%N :: ws) = true)
      by (apply lit_ok_prefix; eauto).
    congruence.
Qed.

Lemma patron_vacia_spec s :
  is_Some (re_match false patron_intervencion_vacia s) <->
  exists X ws, X ∈ etiquetas_del_patron /\ s = X ++ 58%N :: ws
               /\ Forall espacio ws.
Proof.
  rewrite vacia_ramas.
  assert (Hor : is_Some (match rama (py "ENTREVISTAD") s with
                         | Some x => Some x
                         | None => rama (py "ENTREVISTADOR") s
                         end)
                <-> is_Some (rama (py "ENTREVISTAD") s)
                    \/ is_Some (rama (py "ENTREVISTADOR") s)).
  { destruct (rama (py "ENTREVISTAD") s); split; eauto.
    intros [[x Hx]|Hb]; [done|done]. }
  rewrite Hor, !rama_spec. unfold etiquetas_del_patron. split.
  - intros [(c & ws & Hc & -> & Hws)|(c & ws & Hc & -> & Hws)].
    + exists (py "ENTREVISTAD" ++ [c]), ws. rewrite <- app_assoc.
      split; [|done]. destruct Hc as [->| ->]; [left|right; left].
    + exists (py "ENTREVISTADOR" ++ [c]), ws. rewrite <- app_assoc.
      split; [|done]. destruct Hc as [->| ->]; [do 2 right; left|do 3 right; left].
  - intros (X & ws & HX & -> & Hws).
    repeat (apply elem_of_cons in HX as [->|HX]);
      [left; exists 79%N, ws|left; exists 65%N, ws
      |right; exists 79%N, ws|right; exists 65%N, ws
      |by apply elem_of_nil in HX]; (split; [|split; [by vm_compute|done]]); auto.
Qed.

End PatronVacia.

(** ** The empty-intervention validator, exactly *)

Section VaciaExacta.
Context `{Interp}.

Lemma lstrip_head s c : head (lstrip s) = Some c -> isspace c = false.
Proof.
  induction s as [|d s IH]; simpl; [done|].
  destruct (isspace d) eqn:Ed; [done|]. by intros [= <-].
Qed.

(** a stripped text does not end in white space *)
Lemma strip_last t c : last (strip t) = Some c -> isspace c = false.
Proof.
  unfold strip, rstrip. destruct (lstrip (rev (lstrip t))) as [|d l] eqn:El.
  - done.
  - simpl. rewrite last_snoc. intros [= <-].
    apply (lstrip_head (rev (lstrip t))). by rewrite El.
Qed.

Lemma strip_sin_cola t X ws :
  strip t = X ++ 58%N :: ws -> Forall espacio ws -> ws = [].
Proof.
  intros Hs Hws. destruct (last ws) as [c|] eqn:El; [|by apply last_None].
  assert (Hin : c ∈ ws) by (by apply last_Some_elem_of).
  assert (Hc : isspace c = false).
  { apply (strip_last t). rewrite Hs, last_app, last_cons, El. done. }
  rewrite Forall_forall in Hws. apply Hws in Hin. unfold espacio in Hin.
  congruence.
Qed.

(** the stripped paragraph texts on which the pattern matches *)
Definition textos_vacios : list str :=
  (fun X => X ++ py ":") <$> etiquetas_del_patron.

Lemma vacia_de_spec i para :
  vacia_de i para =
  if bool_decide (strip (para_text para) ∈ textos_vacios)
  then [(i + 1, K_VACIA, py "Debe ir junto al texto, sin salto de línea")]
  else [].
Proof.
  unfold vacia_de.
  destruct (re_match false patron_intervencion_vacia (strip (para_text para)))
    as [m|] eqn:Em.
  - rewrite bool_decide_eq_true_2; [done|].
    assert (Hm : is_Some (re_match false patron_intervencion_vacia
                            (strip (para_text para)))) by (rewrite Em; eauto).
    apply patron_vacia_spec in Hm as (X & ws & HX & Hs & Hws).
    pose proof (strip_sin_cola _ _ _ Hs Hws) as ->.
    rewrite Hs. unfold textos_vacios. apply list_elem_of_fmap. by exists X.
  - rewrite bool_decide_eq_false_2; [done|].
    unfold textos_vacios. intros (X & Hs & HX)%list_elem_of_fmap.
    assert (Hm : is_Some (re_match false patron_intervencion_vacia
                            (strip (para_text para)))).
    { apply patron_vacia_spec. exists X, []. by repeat split. }
    rewrite Em in Hm. by destruct Hm.
Qed.

(** C5, what the code does: on the line of a paragraph,
    [validar_intervencion_vacia] reports one error when the stripped
    text is ENTREVISTADO, ENTREVISTADA, ENTREVISTADORO or ENTREVISTADORA
    followed by a colon, and nothing otherwise.  So the valid label
    ENTREVISTADOR followed by a colon is not reported, and
    ENTREVISTADORO, which is not a label, is. *)
Theorem C5_entrevistador_not_reported doc i para :
  paragraphs doc !! i = Some para ->
  let errs := filter (fun e => linea_de e = i + 1) (validar_intervencion_vacia doc) in
  errs = (if bool_decide (strip (para_text para) ∈ textos_vacios)
          then [(i + 1, K_VACIA, py "Debe ir junto al texto, sin salto de línea")]
          else [])
  /\ textos_vacios = [py "ENTREVISTADO:"; py "ENTREVISTADA:";
                      py "ENTREVISTADORO:"; py "ENTREVISTADORA:"]
  /\ (strip (para_text para) = py "ENTREVISTADOR:" -> errs = [])
  /\ str_in (py "ENTREVISTADOR") ETIQUETAS_VALIDAS = true
  /\ str_in (py "ENTREVISTADORO") ETIQUETAS_VALIDAS = false
  /\ (forall rs, validar_intervencion_vacia (un_parrafo (py "ENTREVISTADOR:") rs) = []).
Proof.
  intros Hi errs. subst errs.
  rewrite vacia_unfold, (for_enum_filter _ _ _ _ vacia_local Hi), vacia_de_spec.
  split; [done|]. split; [by vm_compute|].
  split; [intros ->; by vm_compute|].
  split; [by vm_compute|]. split; [by vm_compute|].
  intros rs. by vm_compute.
Qed.

End VaciaExacta.

(** * The theorems at concrete inputs *)

Module Ejemplos.

Import Demo.

Definition times : Run :=
  {| run_text := py "ENTREVISTADO:"; run_bold := None;
     run_font := {| font_name := Some (py "Times New Roman");
                    font_size := Some 152400%Z |} |}.

Definition parrafo0 : Paragraph :=
  {| para_text := py "ENTREVISTADO:"; para_runs := [plain ""; times] |}.

(** a transcript of two paragraphs: a bare label typed in Times New
    Roman, and a line with a question *)
Definition doc : Document :=
  {| paragraphs := [parrafo0; para "Él preguntó: ¿Cómo estás? Bien."] |}.

Definition ref : list str := [py "¿Cómo estás?"].

#[local] Instance interp_demo : Interp := Demo.interp.
#[local] Instance libs_demo : Libs := Demo.libs doc ref None.

Definition nombre : str := py "acta.docx".

Lemma C1_witness :
  exists r,
    analizar_un_docx nombre [] ref [] = (Ret r, [] ++ [EvParseDocx []])
    /\ resumen r = agrupar_por_tipo (errores r)
    /\ dom (resumen r) = tipos (errores r)
    /\ (forall k, k ∈ tipos (errores r) ->
          resumen r !! k = Some (ocurrencias k (errores r)))
    /\ (forall k, default 0 (resumen r !! k) = ocurrencias k (errores r))
    /\ contar (errores r) = resumen r.
Proof. exact (C1_resumen_counts_errors nombre [] ref doc [] eq_refl). Defined.

Lemma C9_witness :
  exists r,
    analizar_un_docx nombre [] ref [] = (Ret r, [] ++ [EvParseDocx []])
    /\ Forall (fun e => 1 <= linea e <= length (paragraphs doc)) (errores r).
Proof. exact (C9_lines_within_document nombre [] ref doc [] eq_refl). Defined.

Lemma C3_witness :
  exists r,
    analizar_un_docx nombre [] ref [] = (Ret r, [] ++ [EvParseDocx []])
    /\ filter (fun e => linea e = 0 + 1) (errores r)
       = List.map registro
           (revisar_runs 0 (para_runs parrafo0)
            ++ [vacia_error 0]
            ++ primer_patron 0 (py "ENTREVISTADO:") ETIQUETAS_INVALIDAS_PATRONES)
    /\ length (revisar_runs 0 (para_runs parrafo0)) <= 1
    /\ length (filter (fun e => tipo_error e = K_VACIA)
                 (filter (fun e => linea e = 0 + 1) (errores r))) = 1
    /\ Forall (fun e => linea e = 0 + 1 ->
                 tipo_error e <> K_PREGUNTA /\ tipo_error e <> K_ENCABEZADO
                 /\ tipo_error e <> K_NEGRITA) (errores r).
Proof.
  exact (C3_entrevistado_alone nombre [] ref doc [] 0 parrafo0 eq_refl eq_refl eq_refl).
Defined.

Lemma C5_witness :
  let errs := filter (fun e => linea_de e = 0 + 1) (validar_intervencion_vacia doc) in
  errs = (if bool_decide (strip (para_text parrafo0) ∈ textos_vacios)
          then [(0 + 1, K_VACIA, py "Debe ir junto al texto, sin salto de línea")]
          else [])
  /\ textos_vacios = [py "ENTREVISTADO:"; py "ENTREVISTADA:";
                      py "ENTREVISTADORO:"; py "ENTREVISTADORA:"]
  /\ (strip (para_text parrafo0) = py "ENTREVISTADOR:" -> errs = [])
  /\ str_in (py "ENTREVISTADOR") ETIQUETAS_VALIDAS = true
  /\ str_in (py "ENTREVISTADORO") ETIQUETAS_VALIDAS = false
  /\ (forall rs, validar_intervencion_vacia (un_parrafo (py "ENTREVISTADOR:") rs) = []).
Proof. exact (C5_entrevistador_not_reported doc 0 parrafo0 eq_refl). Defined.

Lemma C4_witness :
  (exists patron, patron ∈ ETIQUETAS_INVALIDAS_PATRONES.*1
     /\ filter (fun e => linea_de e = 0 + 1) (detectar_etiquetas_invalidas doc)
        = [(0 + 1, K_ETIQUETA, aviso_patron patron)])
  /\ (forall rs, detectar_etiquetas_invalidas (un_parrafo (py "ENTREVISTADA:") rs) = []).
Proof.
  apply (C4_valid_labels_flagged doc 0 parrafo0 [] (py "ENTREVISTADO") (py ":")).
  - reflexivity.
  - do 2 right. left.
  - vm_compute. reflexivity.
  - reflexivity.
  - vm_compute. reflexivity.
Defined.

Lemma C6_witness :
  let errs := filter (fun e => linea_de e = 0 + 1) (validar_fuente_tamano doc) in
  (forall j, length (filter (fun e => linea_de e = j) (validar_fuente_tamano doc)) <= 1)
  /\ ([times] = [] -> errs = [])
  /\ (forall r rs2 n, [times] = r :: rs2 -> viola_fuente r ->
        font_name (run_font r) = Some n ->
        errs = [(0 + 1, K_FUENTE, py "'" ++ n ++ py "' en vez de Arial")])
  /\ (forall r rs2 emu, [times] = r :: rs2 -> ~ viola_fuente r -> viola_tam r ->
        font_size (run_font r) = Some emu ->
        errs = [(0 + 1, K_TAMANO, float_str (pt emu) ++ py "pt en vez de 12pt")]).
Proof.
  apply (C6_first_violation_per_paragraph doc 0 parrafo0 [plain ""] [times]).
  - reflexivity.
  - reflexivity.
  - constructor; [|constructor]. split.
    + intros (n & Hn & _). discriminate Hn.
    + intros (emu & Hemu & _). discriminate Hemu.
Defined.

Definition subida (nombre : string) : UploadFile :=
  {| filename := py nombre; content := [] |}.

(** twelve documents named .docx, in mixed case, with two other files
    among them *)
Definition lote : list UploadFile :=
  [subida "a.docx"; subida "b.DOCX"; subida "notas.txt"; subida "c.docx";
   subida "d.docx"; subida "e.Docx"; subida "f.docx"; subida "g.docx";
   subida "docx"; subida "h.docx"; subida "i.docx"; subida "j.docx";
   subida "k.docx"; subida "l.docx"].

Definition excel : UploadFile := subida "matriz.XLSX".

(** column C as [pandas] returns it *)
Definition hoja : list (option (@cell libs_demo)) :=
  List.map (fun q : str => Some q) ref.

Lemma C7_witness :
  let ref := List.map cell_str (omap id hoja) in
  let resultados :=
    zip_with (fun f d => resultado_de (filename f) d ref) (aceptados lote)
             (replicate 10 doc) in
  analyze_endpoint lote excel None [] =
    (Ret (AnalyzeResponse true (length resultados) resultados),
     [] ++ [EvRead excel; EvParseXlsx (content excel)]
       ++ flat_map traza_docx (aceptados lote))
  /\ length resultados = Nat.min 10 (length (List.filter es_docx lote))
  /\ List.map archivo resultados = List.map filename (aceptados lote)
  /\ (length (List.filter es_docx lote) = 12 -> length resultados = 10)
  /\ Forall2 (fun f r => forall t',
        analizar_un_docx (filename f) (content f) ref t'
        = (Ret r, t' ++ [EvParseDocx (content f)]))
       (aceptados lote) resultados.
Proof.
  apply (C7_batch_truncated_to_ten lote excel None hoja (replicate 10 doc) []).
  - exact I.
  - vm_compute. discriminate.
  - vm_compute. reflexivity.
  - reflexivity.
  - replace (aceptados lote) with
      [subida "a.docx"; subida "b.DOCX"; subida "c.docx"; subida "d.docx";
       subida "e.Docx"; subida "f.docx"; subida "g.docx"; subida "h.docx";
       subida "i.docx"; subida "j.docx"] by (vm_compute; reflexivity).
    repeat constructor.
Defined.

Lemma C8_witness :
  (analyze_endpoint [subida "notas.txt"] excel None []).2 = []
  /\ (autorizado None ->
      (List.filter es_docx [subida "notas.txt"] = [] ->
         analyze_endpoint [subida "notas.txt"] excel None [] =
         (Ret (JSONResponse 400 false (py "Debes adjuntar al menos un .docx")), []))
      /\ (List.filter es_docx [subida "notas.txt"] <> [] ->
         analyze_endpoint [subida "notas.txt"] excel None [] =
         (Ret (JSONResponse 400 false (py "Debes adjuntar un .xlsx de preguntas")), []))).
Proof.
  apply (C8_rejected_before_reading [subida "notas.txt"] excel None []).
  left. vm_compute. reflexivity.
Defined.

End Ejemplos.

(** * More of the program *)

(** ** The endpoint when something is wrong *)

Section EndpointFailures.
Context `{Interp} `{Libs}.

Lemma check_token_reject x_token tok t :
  API_TOKEN = Some tok -> x_token <> Some tok ->
  check_token x_token t = (HTTPException 401 (py "Unauthorized"), t).
Proof.
  intros Htok Hne. unfold check_token. rewrite Htok.
  by rewrite bool_decide_eq_false_2.
Qed.

(** X1: with [API_TOKEN] configured, a request whose [x_token] header is
    missing or different is answered with the 401 exception before any
    file is looked at: nothing is read and nothing is parsed.  With the
    matching token, and always when [API_TOKEN] is not configured, the
    token check lets the request through. *)
Theorem X1_wrong_token_stops_request documentos excel x_token tok t :
  API_TOKEN = Some tok ->
  (x_token <> Some tok ->
     analyze_endpoint documentos excel x_token t
     = (HTTPException 401 (py "Unauthorized"), t))
  /\ (x_token = Some tok -> check_token x_token t = (Ret tt, t)).
Proof.
  intros Htok. split.
  - intros Hne. unfold analyze_endpoint, bind.
    by rewrite (check_token_reject _ tok).
  - intros Hx. apply check_token_ok. unfold autorizado. by rewrite Htok.
Qed.

(** the endpoint up to the reading of the reference list *)
Lemma analyze_endpoint_hasta_excel documentos excel x_token t :
  autorizado x_token ->
  List.filter es_docx documentos <> [] ->
  es_xlsx excel = true ->
  analyze_endpoint documentos excel x_token t =
  bind (lift (pd_read_excel_C (content excel)))
    (fun df =>
       bind (analizar_cada_uno (aceptados documentos)
               (List.map cell_str (omap id df)) [])
         (fun resultados =>
            ret (AnalyzeResponse true (length resultados) resultados)))
    (t ++ [EvRead excel; EvParseXlsx (content excel)]).
Proof.
  intros Hok Hsome Hx. unfold analyze_endpoint, bind at 1.
  rewrite check_token_ok by done.
  rewrite hay_docx by done. unfold es_xlsx in Hx. rewrite Hx. cbn [negb].
  rewrite truncar. fold (aceptados documentos).
  unfold bind at 1, read, bind at 1, tell, ret.
  unfold bind at 1, read_excel_questions, bind at 1, tell.
  unfold bind at 1. rewrite <- app_assoc. cbn [app].
  unfold bind, lift, ret. by destruct (pd_read_excel_C (content excel)).
Qed.

(** X2: when [pandas] cannot read the reference spreadsheet, its
    exception leaves the endpoint: the spreadsheet was read and its
    parsing attempted, and no document is read or parsed. *)
Theorem X2_unreadable_spreadsheet_aborts documentos excel x_token e t :
  autorizado x_token ->
  List.filter es_docx documentos <> [] ->
  es_xlsx excel = true ->
  pd_read_excel_C (content excel) = inl e ->
  analyze_endpoint documentos excel x_token t
  = (Raised e, t ++ [EvRead excel; EvParseXlsx (content excel)]).
Proof.
  intros Hok Hsome Hx He. rewrite analyze_endpoint_hasta_excel by done.
  unfold bind, lift. by rewrite He.
Qed.

Lemma analizar_cada_uno_raise pre docs f post e ref acc t :
  Forall2 (fun f d => docx_Document (content f) = inr d) pre docs ->
  docx_Document (content f) = inl e ->
  analizar_cada_uno (pre ++ f :: post) ref acc t =
  (Raised e, t ++ flat_map traza_docx pre ++ traza_docx f).
Proof.
  intros Hall He. revert acc t.
  induction Hall as [|g d pre docs Hd _ IH]; intros acc t; simpl.
  - unfold bind at 1, read, bind at 1, tell, ret.
    unfold bind at 1. rewrite (analizar_un_docx_raise _ _ _ e) by done.
    by rewrite <- !app_assoc.
  - unfold bind at 1, read, bind at 1, tell, ret.
    unfold bind at 1. rewrite (analizar_un_docx_ok _ _ _ d) by done.
    rewrite IH, <- !app_assoc. reflexivity.
Qed.

(** X3: one kept document that [python-docx] cannot parse fails the
    whole batch: the exception leaves the endpoint, no response with the
    results of the documents before it is produced, and the documents
    after it are neither read nor parsed. *)
Theorem X3_malformed_document_fails_batch
    documentos excel x_token df pre docs f post e t :
  autorizado x_token ->
  es_xlsx excel = true ->
  pd_read_excel_C (content excel) = inr df ->
  aceptados documentos = pre ++ f :: post ->
  Forall2 (fun f d => docx_Document (content f) = inr d) pre docs ->
  docx_Document (content f) = inl e ->
  analyze_endpoint documentos excel x_token t
  = (Raised e,
     t ++ [EvRead excel; EvParseXlsx (content excel)]
       ++ flat_map traza_docx pre ++ traza_docx f).
Proof.
  intros Hok Hx Hdf Hacc Hpre He.
  assert (Hsome : List.filter es_docx documentos <> []).
  { intros Hnil. unfold aceptados in Hacc. rewrite Hnil in Hacc.
    by destruct pre. }
  rewrite analyze_endpoint_hasta_excel by done.
  unfold bind at 1, lift. rewrite Hdf. unfold bind.
  rewrite Hacc, (analizar_cada_uno_raise pre docs f post e) by done.
  by rewrite <- !app_assoc.
Qed.

End EndpointFailures.

(** ** The summary as a whole *)

Section Totales.

(** the sum of the counts of a summary *)
Definition total (resumen : gmap str nat) : nat :=
  map_fold (fun _ n acc => n + acc) 0 resumen.

Lemma total_insert_new (m : gmap str nat) k v :
  m !! k = None -> total (<[k:=v]> m) = v + total m.
Proof.
  intros Hk. unfold total. rewrite map_fold_insert_L; [done| |done].
  intros. lia.
Qed.

Lemma total_insert (m : gmap str nat) k v :
  total (<[k:=v]> m) + default 0 (m !! k) = v + total m.
Proof.
  destruct (m !! k) as [old|] eqn:Hk; simpl.
  - rewrite <- (insert_delete_eq m k v).
    rewrite <- (insert_id m k old Hk) at 2.
    rewrite <- (insert_delete_eq m k old).
    rewrite !total_insert_new by apply lookup_delete_eq. lia.
  - rewrite total_insert_new by done. lia.
Qed.

Lemma total_paso m errs : total (foldl paso m errs) = total m + length errs.
Proof.
  revert m; induction errs as [|e errs IH]; intros m; simpl; [lia|].
  rewrite IH. unfold paso.
  pose proof (total_insert m (tipo_error e) (default 0 (m !! tipo_error e) + 1)).
  lia.
Qed.

Lemma total_contar errs : total (contar errs) = length errs.
Proof. rewrite contar_foldl, total_paso. unfold total. by rewrite map_fold_empty. Qed.

Lemma contar_vacio errs : contar errs = ∅ <-> errs = [].
Proof.
  split; [|by intros ->].
  intros Hm. pose proof (total_contar errs) as Ht. rewrite Hm in Ht.
  unfold total in Ht. rewrite map_fold_empty in Ht. by destruct errs.
Qed.

End Totales.

Section ResultadoEntero.
Context `{Interp} `{Libs}.

(** X4: in the result of [analizar_un_docx] the counts of the summary
    add up to the number of errors, the summary is empty exactly when
    the error list is, and a document without paragraphs gives neither
    errors nor summary entries. *)
Theorem X4_summary_total nombre b ref doc t :
  docx_Document b = inr doc ->
  exists r,
    analizar_un_docx nombre b ref t = (Ret r, t ++ [EvParseDocx b])
    /\ archivo r = nombre
    /\ total (resumen r) = length (errores r)
    /\ (resumen r = ∅ <-> errores r = [])
    /\ (paragraphs doc = [] -> errores r = []).
Proof.
  intros Hdoc. exists (resultado_de nombre doc ref).
  split; [by apply analizar_un_docx_ok|]. simpl.
  split; [done|]. split; [apply total_contar|]. split; [apply contar_vacio|].
  intros Hnil. unfold errores_de, extraer_preguntas_docx, validar_etiquetas_docx,
    validar_negrita_entrevistador, validar_fuente_tamano,
    validar_intervencion_vacia, detectar_etiquetas_invalidas.
  rewrite Hnil. reflexivity.
Qed.

End ResultadoEntero.

(** ** The question extractor *)

Section Preguntas.
Context `{Interp}.

(** a character that can stand inside a question: neither a question
    mark nor a newline *)
Definition es_texto (c : N) : bool := negb ((c =? 63)%N || (c =? 10)%N).

(** The extractor as section 4.4 words it: walk the text, collecting
    the current run of characters; a question mark closes the run and
    reports it (with the mark) when it is not empty; a newline drops it. *)
Fixpoint escanear (acc : str) (s : str) : list str :=
  match s with
  | [] => []
  | c :: s' =>
    if (c =? 63)%N then
      match acc with
      | [] => escanear [] s'
      | _ :: _ => (rev acc ++ [c]) :: escanear [] s'
      end
    else if (c =? 10)%N then escanear [] s'
    else escanear (c :: acc) s'
  end.

(** what follows [[^?\n]+] in the pattern *)
Definition sigue_interrogacion (st1 : mstate) : option mstate :=
  mt false (RChar (CChar 63)) st1 Some.

Lemma pregunta_at prev pos s :
  match_at false patron_pregunta (MState prev pos s None)
  = rep false (CNot (CUnion (CChar 63) (CChar 10))) 1 None prev pos s
      sigue_interrogacion.
Proof. reflexivity. Qed.

Lemma cs_in_texto c :
  cs_in false (CNot (CUnion (CChar 63) (CChar 10))) c = es_texto c.
Proof. reflexivity. Qed.

(** the text stops being question text at [rest] *)
Definition corte (rest : str) : Prop :=
  match rest with
  | [] => True
  | c :: _ => es_texto c = false
  end.

Definition empieza_63 (rest : str) : bool :=
  match rest with
  | c :: _ => (c =? 63)%N
  | [] => false
  end.

Lemma rep_pregunta min prev pos run rest :
  Forall (fun c => es_texto c = true) run -> corte rest ->
  rep false (CNot (CUnion (CChar 63) (CChar 10))) min None prev pos
      (run ++ rest) sigue_interrogacion
  = if (min <=? length run)%nat && empieza_63 rest
    then Some (MState (Some 63%N) (S (pos + length run)) (tail rest) None)
    else None.
Proof.
  intros Hrun Hcorte. revert min prev pos.
  induction Hrun as [|c run Hc _ IH]; intros min prev pos.
  - simpl. destruct rest as [|c rest]; simpl.
    + destruct min; [done|]. by rewrite andb_false_r.
    + simpl in Hcorte. rewrite cs_in_texto, Hcorte.
      destruct min as [|min]; [|done]. unfold sigue_interrogacion. cbn [mt m_rest].
      unfold cs_in. cbn [cs_compiled]. rewrite Nat.add_0_r. cbn [m_pos m_grp].
      destruct (N.eqb_spec c 63) as [->|]; done.
  - cbn [app rep]. rewrite cs_in_texto, Hc, IH.
    replace (pred min <=? length run)%nat with (min <=? length (c :: run))%nat.
    2:{ simpl. destruct min as [|min]; [done|]. reflexivity. }
    replace (S (S pos + length run)) with (S (pos + length (c :: run)))
      by (simpl; lia).
    destruct ((min <=? length (c :: run))%nat && empieza_63 rest) eqn:E; [done|].
    destruct min as [|min]; [|done].
    unfold sigue_interrogacion. cbn [mt m_rest]. unfold cs_in. cbn [cs_compiled].
    unfold es_texto in Hc. destruct (c =? 63)%N; [done|reflexivity].
Qed.

(** every text splits into a run of question text and a rest that
    begins with a question mark or a newline, or is empty *)
Lemma partir s :
  exists run rest, s = run ++ rest
    /\ Forall (fun c => es_texto c = true) run /\ corte rest.
Proof.
  induction s as [|c s (run & rest & -> & Hrun & Hrest)].
  - by exists [], [].
  - destruct (es_texto c) eqn:Ec.
    + exists (c :: run), rest. repeat split; [by constructor|done].
    + exists [], (c :: run ++ rest). by repeat split.
Qed.

Lemma findall_skip r prev pos l s :
  findall_from r prev pos (l ++ s) (length l)
  = findall_from r (ultimo prev l) (pos + length l) s 0.
Proof.
  revert prev pos; induction l as [|c l IH]; intros prev pos; simpl.
  - by rewrite Nat.add_0_r.
  - rewrite IH. f_equal. lia.
Qed.

Lemma escanear_run acc run rest :
  Forall (fun c => es_texto c = true) run ->
  escanear acc (run ++ rest) = escanear (rev run ++ acc) rest.
Proof.
  intros Hrun. revert acc; induction Hrun as [|c run Hc _ IH]; intros acc.
  - done.
  - simpl. unfold es_texto in Hc.
    destruct (c =? 63)%N; [done|]. destruct (c =? 10)%N; [done|].
    rewrite IH. by rewrite <- app_assoc.
Qed.

Lemma escanear_corte acc rest :
  corte rest -> empieza_63 rest = false -> escanear acc rest = escanear [] rest.
Proof.
  destruct rest as [|c rest]; simpl; [done|].
  intros Hc H63. unfold es_texto in Hc. rewrite H63 in Hc |- *.
  simpl in Hc. apply negb_false_iff in Hc. by rewrite Hc.
Qed.

Lemma findall_escanear_len n s prev pos :
  length s <= n ->
  findall_from patron_pregunta prev pos s 0 = escanear [] s.
Proof.
  revert s prev pos; induction n as [|n IH]; intros s prev pos Hlen.
  { destruct s; [done|simpl in Hlen; lia]. }
  destruct (partir s) as (run & rest & -> & Hrun & Hcorte).
  destruct run as [|c0 run].
  - destruct rest as [|c rest]; [done|].
    cbn [app findall_from]. rewrite pregunta_at.
    pose proof (rep_pregunta 1 prev pos [] (c :: rest)) as Hr.
    cbn [app] in Hr. rewrite Hr by done. clear Hr.
    cbn [length Nat.leb andb]. rewrite IH by (simpl in Hlen; lia).
    simpl in Hcorte. unfold es_texto in Hcorte. simpl.
    destruct (c =? 63)%N; [done|]. by destruct (c =? 10)%N.
  - cbn [app findall_from]. rewrite pregunta_at.
    pose proof (rep_pregunta 1 prev pos (c0 :: run) rest) as Hr.
    cbn [app] in Hr. rewrite Hr by done. clear Hr.
    cbn [length Nat.leb andb].
    apply Forall_cons in Hrun as [Hc0 Hrun].
    destruct rest as [|c rest].
    + cbn [empieza_63]. rewrite IH by (simpl in Hlen; lia).
      change (c0 :: run ++ []) with ((c0 :: run) ++ []).
      rewrite (escanear_run [] (c0 :: run) []) by (by constructor).
      by rewrite (escanear_run [] run []).
    + cbn [empieza_63]. destruct (N.eqb_spec c 63) as [->|Hne].
      * cbn [m_pos]. replace (S (pos + S (length run)) - pos) with (S (S (length run))) by lia.
        cbn [pred].
        replace (take (S (S (length run))) (c0 :: run ++ 63%N :: rest))
          with ((c0 :: run) ++ [63%N]).
        2:{ change (c0 :: run ++ 63%N :: rest) with ((c0 :: run) ++ [63%N] ++ rest).
            rewrite app_assoc, take_app_length'; [done|].
            rewrite length_app. simpl. lia. }
        replace (run ++ 63%N :: rest) with ((run ++ [63%N]) ++ rest)
          by (by rewrite <- app_assoc).
        replace (S (length run)) with (length (run ++ [63%N]))
          by (rewrite length_app; simpl; lia).
        rewrite findall_skip.
        rewrite IH by (simpl in Hlen; rewrite !length_app in Hlen; simpl in Hlen; lia).
        change (c0 :: (run ++ [63%N]) ++ rest) with ((c0 :: run ++ [63%N]) ++ rest).
        replace ((c0 :: run ++ [63%N]) ++ rest) with ((c0 :: run) ++ 63%N :: rest)
          by (simpl; by rewrite <- app_assoc).
        rewrite (escanear_run [] (c0 :: run)) by (by constructor).
        rewrite app_nil_r. cbn [escanear]. rewrite N.eqb_refl.
        destruct (rev (c0 :: run)) as [|x l] eqn:Er.
        { apply (f_equal (@length N)) in Er. rewrite length_rev in Er.
          simpl in Er. lia. }
        by rewrite <- Er, rev_involutive.
      * rewrite IH by (simpl in Hlen; lia).
        change (c0 :: run ++ c :: rest) with ((c0 :: run) ++ c :: rest).
        rewrite (escanear_run [] (c0 :: run)) by (by constructor).
        rewrite (escanear_run [] run) by done.
        rewrite !(escanear_corte (_ ++ [])); [done|done| |done| ].
        all: simpl; by apply N.eqb_neq.
Qed.

Lemma findall_escanear s : findall patron_pregunta s = escanear [] s.
Proof. unfold findall. by apply (findall_escanear_len (length s)). Qed.

End Preguntas.

Section PreguntasForma.
Context `{Interp}.

(** the shape of a match of the question pattern: a non-empty run of
    question text and the question mark that closes it *)
Definition es_pregunta (q : str) : Prop :=
  exists run, q = run ++ [63%N] /\ run <> []
              /\ Forall (fun c => es_texto c = true) run.

Lemma escanear_forma acc s :
  Forall (fun c => es_texto c = true) acc ->
  Forall es_pregunta (escanear acc s).
Proof.
  revert acc; induction s as [|c s IH]; intros acc Hacc; simpl; [constructor|].
  destruct (N.eqb_spec c 63) as [->|H63].
  - destruct acc as [|a acc]; [by apply IH|].
    constructor; [|by apply IH]. exists (rev (a :: acc)).
    split; [done|]. split.
    + intros Hnil. apply (f_equal (@length N)) in Hnil.
      rewrite length_rev in Hnil. simpl in Hnil. lia.
    + apply Forall_forall. intros x Hx%list_elem_of_In%in_rev%list_elem_of_In.
      by apply (proj1 (Forall_forall _ _) Hacc).
  - destruct (N.eqb_spec c 10) as [->|H10]; [by apply IH|].
    apply IH. constructor; [|done]. unfold es_texto.
    by rewrite (proj2 (N.eqb_neq _ _) H63), (proj2 (N.eqb_neq _ _) H10).
Qed.

Lemma escanear_sin_interrogacion acc s : 63%N ∉ s -> escanear acc s = [].
Proof.
  revert acc; induction s as [|c s IH]; intros acc Hs; simpl; [done|].
  apply not_elem_of_cons in Hs as [Hc Hs].
  rewrite (proj2 (N.eqb_neq _ _)) by done.
  destruct (c =? 10)%N; by apply IH.
Qed.

Lemma lstrip_snoc run c :
  isspace c = false -> lstrip (run ++ [c]) = lstrip run ++ [c].
Proof.
  intros Hc. induction run as [|d run IH]; simpl; [by rewrite Hc|].
  by destruct (isspace d).
Qed.

Lemma strip_pregunta run : strip (run ++ [63%N]) = lstrip run ++ [63%N].
Proof.
  unfold strip, rstrip. rewrite lstrip_snoc by done.
  rewrite rev_app_distr. simpl. by rewrite rev_involutive.
Qed.

Lemma lstrip_sufijo s : exists ws, s = ws ++ lstrip s.
Proof.
  induction s as [|c s [ws IH]]; [by exists []|]. simpl.
  destruct (isspace c); [|by exists []].
  exists (c :: ws). simpl. by f_equal.
Qed.

Lemma preguntas_de_escanear i para :
  preguntas_de i para
  = List.map (fun q => (i + 1, strip q)) (escanear [] (para_text para)).
Proof.
  unfold preguntas_de. rewrite findall_escanear.
  pose proof (escanear_forma [] (para_text para) (Forall_nil_2 _)) as Hf.
  induction Hf as [|q qs (run & -> & _ & _) _ IH]; [done|].
  cbn [flat_map List.map]. rewrite IH, strip_pregunta.
  by destruct (lstrip run).
Qed.

Lemma preguntas_escanear_desde i ps :
  for_enum preguntas_de i ps
  = for_enum (fun i para =>
                List.map (fun q => (i + 1, strip q))
                         (escanear [] (para_text para))) i ps.
Proof.
  revert i; induction ps as [|p ps IH]; intros i; cbn [for_enum]; [done|].
  by rewrite preguntas_de_escanear, IH.
Qed.

Lemma preguntas_sin_interrogacion i ps :
  Forall (fun para => 63%N ∉ para_text para) ps ->
  for_enum preguntas_de i ps = [].
Proof.
  intros Hall. revert i.
  induction Hall as [|p ps Hp _ IH]; intros i; cbn [for_enum]; [done|].
  rewrite IH, preguntas_de_escanear, escanear_sin_interrogacion by done.
  reflexivity.
Qed.

(** X5: the question extractor, written with the pattern
    [[^?\n]+\?] and [findall], computes what the direct scan of the
    text computes: for every paragraph, in order, each non-empty run
    without question mark or newline that a question mark closes,
    stripped, with the paragraph's line.  Every match survives the
    strip: none is dropped for being empty. *)
Theorem X5_extractor_is_scan doc :
  extraer_preguntas_docx doc
  = for_enum (fun i para =>
                List.map (fun q => (i + 1, strip q))
                         (escanear [] (para_text para)))
             0 (paragraphs doc).
Proof.
  rewrite extraer_unfold. apply preguntas_escanear_desde.
Qed.

Lemma preguntas_de_forma i para l q :
  (l, q) ∈ preguntas_de i para ->
  l = i + 1
  /\ exists cuerpo, q = cuerpo ++ [63%N]
       /\ Forall (fun c => es_texto c = true) cuerpo
       /\ (forall c, head q = Some c -> isspace c = false).
Proof.
  rewrite preguntas_de_escanear. intros Hin.
  apply list_elem_of_In, in_map_iff in Hin as (q0 & [= <- <-] & Hq0).
  split; [done|].
  pose proof (escanear_forma [] (para_text para) (Forall_nil_2 _)) as Hf.
  rewrite Forall_forall in Hf.
  destruct (Hf q0 (proj2 (list_elem_of_In _ _) Hq0)) as (run & -> & _ & Hrun).
  rewrite strip_pregunta. exists (lstrip run). split; [done|]. split.
  - destruct (lstrip_sufijo run) as [ws Hws]. rewrite Hws in Hrun.
    by apply Forall_app in Hrun as [_ Hrun].
  - intros c. destruct (lstrip run) as [|d l'] eqn:El; simpl.
    + by intros [= <-].
    + intros [= <-]. apply (lstrip_head run). by rewrite El.
Qed.

(** X6: every question the extractor reports carries the line of a
    paragraph of the document and is a text that ends in a question
    mark, has no other question mark and no newline, and does not begin
    with white space. *)
Theorem X6_extracted_question_shape doc l q :
  (l, q) ∈ extraer_preguntas_docx doc ->
  1 <= l <= length (paragraphs doc)
  /\ exists cuerpo, q = cuerpo ++ py "?"
       /\ (63%N ∉ cuerpo) /\ (10%N ∉ cuerpo)
       /\ (forall c, head q = Some c -> isspace c = false).
Proof.
  rewrite extraer_unfold.
  intros (j & para & Hj & Hin)%for_enum_elem.
  apply preguntas_de_forma in Hin as (-> & cuerpo & -> & Hc & Hh).
  apply lookup_lt_Some in Hj. split; [simpl; lia|].
  exists cuerpo. split; [done|].
  rewrite Forall_forall in Hc.
  split; [|split; [|done]]; intros Hin; apply Hc in Hin; by vm_compute in Hin.
Qed.

End PreguntasForma.

(** ** Comparing with the reference list *)

Section Comparar.
Context `{Interp}.

Definition aviso_pregunta (lq : nat * str) : ErrorTuple :=
  (lq.1, K_PREGUNTA, py "'" ++ lq.2 ++ py "' no está en la matriz de referencia").

Lemma comparar_cons l q qs ref :
  comparar_preguntas ((l, q) :: qs) ref
  = (if bool_decide (q ∈ ref) then [] else [aviso_pregunta (l, q)])
    ++ comparar_preguntas qs ref.
Proof.
  unfold comparar_preguntas, str_in. cbn [flat_map].
  by destruct (bool_decide (q ∈ ref)).
Qed.

(** X7: the question check reports exactly the questions that are not
    in the reference list, once each and in their order: no error at
    all exactly when every question is in the list, and one error per
    question when the list is empty. *)
Theorem X7_question_errors_exact (qs : list (nat * str)) (ref : list str) :
  comparar_preguntas qs ref
  = List.map aviso_pregunta (filter (fun lq => lq.2 ∉ ref) qs)
  /\ (comparar_preguntas qs ref = [] <-> Forall (fun lq => lq.2 ∈ ref) qs)
  /\ length (comparar_preguntas qs []) = length qs.
Proof.
  assert (Hmap : forall ref',
    comparar_preguntas qs ref'
    = List.map aviso_pregunta (filter (fun lq => lq.2 ∉ ref') qs)).
  { intros ref'. induction qs as [|[l q] qs IH]; [done|].
    rewrite comparar_cons, IH, filter_cons. simpl.
    destruct (decide (q ∈ ref')) as [Hin|Hnin].
    - rewrite bool_decide_eq_true_2 by done.
      by rewrite decide_False by (by intros Hn).
    - rewrite bool_decide_eq_false_2 by done. by rewrite decide_True. }
  split; [apply Hmap|]. split.
  - rewrite Hmap. split.
    + intros Hnil. apply Forall_forall. intros lq Hlq.
      destruct (decide (lq.2 ∈ ref)) as [|Hn]; [done|].
      assert (Hf : lq ∈ filter (fun lq => lq.2 ∉ ref) qs)
        by (by apply list_elem_of_filter).
      destruct (filter _ qs); [by apply elem_of_nil in Hf|discriminate Hnil].
    + intros Hall. rewrite filter_none; [done|].
      eapply Forall_impl; [exact Hall|]. intros lq Hin Hn. by apply Hn.
  - rewrite Hmap, length_map. f_equal. apply filter_all, Forall_forall.
    intros lq _. apply not_elem_of_nil.
Qed.

(** X8: only membership in the reference list counts: two lists with
    the same questions, in any order and with any repetitions, give the
    same errors, and adding questions to the list never adds an error
    (the errors for the longer list are a sublist of those for the
    shorter one). *)
Theorem X8_reference_as_a_set (qs : list (nat * str)) (ref ref' : list str) :
  ((forall q, q ∈ ref <-> q ∈ ref') ->
     comparar_preguntas qs ref = comparar_preguntas qs ref')
  /\ (ref ⊆ ref' ->
     sublist (comparar_preguntas qs ref') (comparar_preguntas qs ref)).
Proof.
  split.
  - intros Hsame. induction qs as [|[l q] qs IH]; [done|].
    rewrite !comparar_cons, IH. f_equal.
    destruct (decide (q ∈ ref)) as [Hin|Hnin].
    + rewrite !bool_decide_eq_true_2; [done| |done]. by apply Hsame.
    + rewrite !bool_decide_eq_false_2; [done| |done]. by rewrite <- Hsame.
  - intros Hsub. induction qs as [|[l q] qs IH]; [done|].
    rewrite !comparar_cons.
    destruct (decide (q ∈ ref)) as [Hin|Hnin].
    + rewrite (bool_decide_eq_true_2 (q ∈ ref)) by done.
      rewrite (bool_decide_eq_true_2 (q ∈ ref')) by (by apply Hsub).
      exact IH.
    + rewrite (bool_decide_eq_false_2 (q ∈ ref)) by done.
      destruct (bool_decide (q ∈ ref')); simpl.
      * by apply sublist_cons.
      * by apply sublist_skip.
Qed.

(** X9: a document none of whose paragraphs contains a question mark
    has no question, and so gets no "Pregunta no coincide" error
    whatever the reference list, even an empty one. *)
Theorem X9_no_question_mark_no_error doc ref :
  Forall (fun para => 63%N ∉ para_text para) (paragraphs doc) ->
  extraer_preguntas_docx doc = []
  /\ comparar_preguntas (extraer_preguntas_docx doc) ref = [].
Proof.
  intros Hall.
  assert (Hnone : extraer_preguntas_docx doc = []); [|by rewrite Hnone].
  rewrite extraer_unfold. by apply preguntas_sin_interrogacion.
Qed.

End Comparar.

(** ** Text helpers *)

Section Texto.

Lemma startswith_spec s p : startswith s p = true <-> exists r, s = p ++ r.
Proof.
  revert s; induction p as [|a p IH]; intros s.
  - split; [by exists s|by destruct s].
  - destruct s as [|b s]; simpl; [split; [done|by intros (r & [=])]|].
    rewrite andb_true_iff, N.eqb_eq, IH. split.
    + intros [-> (r & ->)]. by exists r.
    + intros (r & [= -> ->]). split; [done|by exists r].
Qed.

Lemma contains_spec s p : contains s p = true <-> exists a b, s = a ++ p ++ b.
Proof.
  induction s as [|c s IH]; cbn [contains].
  - rewrite orb_false_r, startswith_spec. split.
    + intros (r & Hr). by exists [], r.
    + intros (a & b & Hs). symmetry in Hs.
      apply app_eq_nil in Hs as [-> Hs]. apply app_eq_nil in Hs as [-> ->].
      by exists [].
  - rewrite orb_true_iff, startswith_spec, IH. split.
    + intros [(r & ->)|(a & b & ->)]; [by exists [], r|by exists (c :: a), b].
    + intros ([|c' a] & b & Hs).
      * left. by exists b.
      * right. injection Hs as -> ->. by exists a, b.
Qed.

Lemma split_first_antes sep lab r :
  sep ∉ lab -> split_first sep (lab ++ sep :: r) = lab.
Proof.
  induction lab as [|c lab IH]; simpl; intros Hlab.
  - by rewrite N.eqb_refl.
  - apply not_elem_of_cons in Hlab as [Hc Hlab].
    rewrite (proj2 (N.eqb_neq c sep)) by done. by rewrite IH.
Qed.

End Texto.

(** ** The interviewer's lines must be bold *)

Section Negrita.
Context `{Interp}.

(** a run with visible text that is not marked bold *)
Definition sin_negrita (run : Run) : Prop :=
  strip (run_text run) <> [] /\ run_bold run <> Some true.

Lemma runs_all_bold_false rs :
  runs_all_bold rs = false <-> Exists sin_negrita rs.
Proof.
  induction rs as [|run rs IH]; simpl.
  - split; [done|by intros ?%Exists_nil].
  - rewrite Exists_cons. unfold sin_negrita at 1.
    destruct (strip (run_text run)) as [|c l] eqn:Es; simpl.
    + rewrite IH. split; [by right|]. by intros [[[] _]|].
    + destruct (run_bold run) as [[]|]; simpl.
      * rewrite IH. split; [by right|]. by intros [[_ []]|].
      * split; [by left|done].
      * split; [by left|done].
Qed.

Lemma runs_all_bold_true rs :
  runs_all_bold rs = true <-> Forall (fun run => ~ sin_negrita run) rs.
Proof.
  rewrite <- not_false_iff_true, runs_all_bold_false.
  by rewrite <- Forall_Exists_neg.
Qed.

Definition es_entrevistador (texto : str) : Prop :=
  (exists r, texto = py "ENTREVISTADOR:" ++ r)
  \/ (exists r, texto = py "ENTREVISTADORA:" ++ r).

Lemma negrita_cond texto :
  startswith texto (py "ENTREVISTADOR:") || startswith texto (py "ENTREVISTADORA:")
  = true <-> es_entrevistador texto.
Proof. by rewrite orb_true_iff, !startswith_spec. Qed.

(** X10: the interviewer-bold check reports a paragraph exactly when
    its stripped text begins with ENTREVISTADOR: or ENTREVISTADORA: and
    one of its runs has visible text that is not marked bold; it then
    reports one error, which names the label.  A paragraph of another
    speaker, a paragraph with no runs, and an interviewer paragraph
    whose visible runs are all bold are never reported. *)
Theorem X10_interviewer_bold_exact doc i para :
  paragraphs doc !! i = Some para ->
  let texto := strip (para_text para) in
  let errs :=
    filter (fun e => linea_de e = i + 1) (validar_negrita_entrevistador doc) in
  (forall etiqueta resto,
     etiqueta ∈ [py "ENTREVISTADOR"; py "ENTREVISTADORA"] ->
     texto = etiqueta ++ py ":" ++ resto ->
     Exists sin_negrita (para_runs para) ->
     errs = [(i + 1, K_NEGRITA,
              py "Texto de " ++ etiqueta ++ py " no está completamente en negrita.")])
  /\ (Forall (fun run => ~ sin_negrita run) (para_runs para) -> errs = [])
  /\ (~ es_entrevistador texto -> errs = []).
Proof.
  intros Hi texto errs. subst errs.
  rewrite negrita_unfold, (for_enum_filter _ _ _ _ negrita_local Hi).
  unfold negrita_de. fold texto. cbv zeta.
  split; [|split].
  - intros etiqueta resto Het Htexto Hex.
    assert (Hcond : es_entrevistador texto).
    { rewrite Htexto.
      repeat (apply elem_of_cons in Het as [->|Het]);
        [left|right|by apply elem_of_nil in Het]; by exists resto. }
    apply negrita_cond in Hcond. rewrite Hcond.
    apply runs_all_bold_false in Hex. rewrite Hex. cbn [negb].
    rewrite Htexto. change (py ":" ++ resto) with (58%N :: resto).
    rewrite split_first_antes; [done|].
    repeat (apply elem_of_cons in Het as [->|Het]);
      [| |by apply elem_of_nil in Het];
      apply (bool_decide_unpack _); by vm_compute.
  - intros Hall. apply runs_all_bold_true in Hall. rewrite Hall.
    by destruct (_ || _).
  - intros Hno. destruct (_ || _) eqn:Ec; [|done].
    by apply negrita_cond in Ec.
Qed.

End Negrita.

(** ** The label at the start of a paragraph *)

Section Etiquetas.
Context `{Interp}.

Definition mayuscula (c : N) : Prop := is_upper_ascii c = true.

(** what follows the group [([A-Z]+)]: the colon, with the group closed
    where the cursor is *)
Definition sigue_colon (st1 : mstate) : option mstate :=
  mt false (RChar (CChar 58))
     (MState (m_prev st1) (m_pos st1) (m_rest st1) (Some (0, m_pos st1))) Some.

Lemma etiqueta_at s :
  re_match false patron_etiqueta s
  = rep false (CRange 65 90) 1 None None 0 s sigue_colon.
Proof. reflexivity. Qed.

Lemma cs_in_mayuscula c : cs_in false (CRange 65 90) c = is_upper_ascii c.
Proof. reflexivity. Qed.

(** the run of capitals stops at [rest] *)
Definition corte_mayusculas (rest : str) : Prop :=
  match rest with
  | [] => True
  | c :: _ => is_upper_ascii c = false
  end.

Definition empieza_colon (rest : str) : bool :=
  match rest with
  | c :: _ => (c =? 58)%N
  | [] => false
  end.

Lemma rep_etiqueta min prev pos U rest :
  Forall mayuscula U -> corte_mayusculas rest ->
  rep false (CRange 65 90) min None prev pos (U ++ rest) sigue_colon
  = if (min <=? length U)%nat && empieza_colon rest
    then Some (MState (Some 58%N) (S (pos + length U)) (tail rest)
                      (Some (0, pos + length U)))
    else None.
Proof.
  intros HU Hcorte. revert min prev pos.
  induction HU as [|c U Hc _ IH]; intros min prev pos.
  - simpl. destruct rest as [|c rest]; simpl.
    + destruct min; [done|]. by rewrite andb_false_r.
    + simpl in Hcorte. rewrite cs_in_mayuscula, Hcorte.
      destruct min as [|min]; [|done]. unfold sigue_colon. cbn [mt m_rest].
      unfold cs_in. cbn [cs_compiled]. rewrite Nat.add_0_r. cbn [m_pos m_grp].
      destruct (N.eqb_spec c 58) as [->|]; done.
  - cbn [app rep]. rewrite cs_in_mayuscula, Hc, IH.
    replace (pred min <=? length U)%nat with (min <=? length (c :: U))%nat.
    2:{ simpl. destruct min as [|min]; [done|]. reflexivity. }
    replace (S pos + length U) with (pos + length (c :: U)) by (simpl; lia).
    destruct ((min <=? length (c :: U))%nat && empieza_colon rest) eqn:E; [done|].
    destruct min as [|min]; [|done].
    unfold sigue_colon. cbn [mt m_rest]. unfold cs_in. cbn [cs_compiled].
    destruct (N.eqb_spec c 58) as [->|]; [by vm_compute in Hc|reflexivity].
Qed.

Lemma partir_mayusculas s :
  exists U rest, s = U ++ rest /\ Forall mayuscula U /\ corte_mayusculas rest.
Proof.
  induction s as [|c s (U & rest & -> & HU & Hrest)].
  - by exists [], [].
  - destruct (is_upper_ascii c) eqn:Ec.
    + exists (c :: U), rest. repeat split; [by constructor|done].
    + exists [], (c :: U ++ rest). by repeat split.
Qed.

(** the label pattern matches exactly the texts that begin with a
    non-empty run of capitals A-Z and a colon; group 1 is that run *)
Lemma etiqueta_match U resto :
  U <> [] -> Forall mayuscula U ->
  exists m, re_match false patron_etiqueta (U ++ 58%N :: resto) = Some m
            /\ group1 (U ++ 58%N :: resto) m = U.
Proof.
  intros Hne HU.
  assert (Hlen : (1 <=? length U)%nat = true)
    by (destruct U; [done|reflexivity]).
  rewrite etiqueta_at, rep_etiqueta by done. rewrite Hlen.
  cbn [andb empieza_colon]. rewrite N.eqb_refl. eexists. split; [done|].
  unfold group1. cbn [m_grp Nat.add]. rewrite Nat.sub_0_r, drop_0.
  by rewrite take_app_length.
Qed.

Lemma etiqueta_no_match s :
  (forall U resto, U <> [] -> Forall mayuscula U -> s <> U ++ 58%N :: resto) ->
  re_match false patron_etiqueta s = None.
Proof.
  intros Hno. destruct (partir_mayusculas s) as (U & rest & -> & HU & Hcorte).
  rewrite etiqueta_at, rep_etiqueta by done.
  destruct (_ && _) eqn:E; [|done]. exfalso.
  apply andb_true_iff in E as [Hlen Hc]. apply Nat.leb_le in Hlen.
  destruct rest as [|c rest]; [done|]. simpl in Hc. apply N.eqb_eq in Hc as ->.
  apply (Hno U rest); [|done..]. intros ->. simpl in Hlen. lia.
Qed.

(** a bold run that contains the label *)
Definition run_con_etiqueta (etiqueta : str) (run : Run) : Prop :=
  run_bold run = Some true
  /\ exists a b, run_text run = a ++ etiqueta ++ b.

Lemma existsb_etiqueta etiqueta rs :
  existsb (fun run => is_true_opt (run_bold run) && contains (run_text run) etiqueta) rs
  = true <-> Exists (run_con_etiqueta etiqueta) rs.
Proof.
  rewrite existsb_exists, Exists_exists. unfold run_con_etiqueta.
  split; intros (run & Hin & Hrun); exists run.
  - apply list_elem_of_In in Hin. split; [done|].
    apply andb_true_iff in Hrun as [Hb Hc]. apply contains_spec in Hc.
    split; [|done]. by destruct (run_bold run) as [[]|].
  - apply list_elem_of_In in Hin. split; [done|].
    destruct Hrun as [-> Hc]. by apply contains_spec in Hc as ->.
Qed.

Lemma str_in_spec s l : str_in s l = true <-> s ∈ l.
Proof. unfold str_in. apply bool_decide_eq_true. Qed.

Lemma str_in_false s l : str_in s l = false <-> s ∉ l.
Proof. unfold str_in. apply bool_decide_eq_false. Qed.

(** X11: for a paragraph whose stripped text begins with a run of
    capitals A-Z followed by a colon, the label check looks at that run:
    if it is not one of the four labels, one "Etiqueta inválida" error
    names it; if it is ENTREVISTADO or ENTREVISTADA, nothing is
    reported; if it is ENTREVISTADOR or ENTREVISTADORA, nothing is
    reported when some bold run contains the label, and one "Encabezado
    sin negrita" error otherwise. *)
Theorem X11_label_check_exact doc i para U resto :
  paragraphs doc !! i = Some para ->
  strip (para_text para) = U ++ py ":" ++ resto ->
  U <> [] -> Forall mayuscula U ->
  let errs := filter (fun e => linea_de e = i + 1) (validar_etiquetas_docx doc) in
  (U ∉ ETIQUETAS_VALIDAS ->
     errs = [(i + 1, K_ETIQUETA, py "Etiqueta '" ++ U ++ py "' no es válida.")])
  /\ (U ∈ [py "ENTREVISTADO"; py "ENTREVISTADA"] -> errs = [])
  /\ (U ∈ [py "ENTREVISTADOR"; py "ENTREVISTADORA"] ->
      (Exists (run_con_etiqueta U) (para_runs para) -> errs = [])
      /\ (~ Exists (run_con_etiqueta U) (para_runs para) ->
          errs = [(i + 1, K_ENCABEZADO,
                   py "Etiqueta '" ++ U ++ py "' debería estar en negrita.")])).
Proof.
  intros Hi Htexto Hne HU errs. subst errs.
  rewrite etiquetas_unfold, (for_enum_filter _ _ _ _ etiqueta_local Hi).
  unfold etiqueta_de. cbv zeta. rewrite Htexto.
  change (py ":" ++ resto) with (58%N :: resto).
  destruct (etiqueta_match U resto Hne HU) as (m & -> & ->).
  split; [|split].
  - intros Hno. by rewrite (proj2 (str_in_false _ _) Hno).
  - intros HU2.
    repeat (apply elem_of_cons in HU2 as [->|HU2]);
      [| |by apply elem_of_nil in HU2]; by vm_compute.
  - intros HU2.
    assert (Hval : str_in U ETIQUETAS_VALIDAS = true).
    { repeat (apply elem_of_cons in HU2 as [->|HU2]);
        [| |by apply elem_of_nil in HU2]; by vm_compute. }
    rewrite Hval, (proj2 (str_in_spec _ _) HU2). cbn [negb].
    split.
    + intros Hex%existsb_etiqueta. by rewrite Hex.
    + intros Hex. destruct (existsb _ _) eqn:Eb; [|done].
      by apply existsb_etiqueta in Eb.
Qed.

(** X12: a paragraph whose stripped text does not begin with a run of
    capitals A-Z followed by a colon (a label in lower or mixed case, an
    accented capital, a space before the colon, no colon at all) is
    never reported by the label check. *)
Theorem X12_no_capital_label_no_error doc i para :
  paragraphs doc !! i = Some para ->
  (forall U resto, U <> [] -> Forall mayuscula U ->
     strip (para_text para) <> U ++ py ":" ++ resto) ->
  filter (fun e => linea_de e = i + 1) (validar_etiquetas_docx doc) = [].
Proof.
  intros Hi Hno.
  rewrite etiquetas_unfold, (for_enum_filter _ _ _ _ etiqueta_local Hi).
  unfold etiqueta_de. cbv zeta. by rewrite etiqueta_no_match.
Qed.

End Etiquetas.

(** ** The first pattern of the table *)

Section DetectorMas.
Context `{Interp}.

Lemma tras_len w u prev pos s' g :
  length w = length u ->
  tras w (MState prev pos (u ++ s') g)
  = MState (ultimo prev u) (pos + length u) s' g.
Proof.
  revert u prev pos; induction w as [|p w IH]; intros [|c u] prev pos Hlen;
    try discriminate Hlen.
  - simpl. destruct s'; by rewrite Nat.add_0_r.
  - simpl. rewrite IH by (simpl in Hlen; lia). f_equal. lia.
Qed.

Lemma lit_ok_forall2 ic w u post :
  Forall2 (fun p c => cs_in ic (CChar p) c = true) w u ->
  lit_ok ic w (u ++ post) = true.
Proof.
  induction 1 as [|p c w u Hpc _ IH]; simpl.
  - by destruct post.
  - by rewrite Hpc, IH.
Qed.

Lemma ultimo_no_vacio prev u : u <> [] -> ultimo prev u = last u.
Proof.
  revert prev; induction u as [|c u IH]; intros prev Hu; [done|].
  destruct u as [|d u]; [done|].
  rewrite last_cons_cons. by apply (IH (Some c)).
Qed.

(** a whole-word pattern is found wherever its word stands between
    characters that are not word characters *)
Lemma word_pat_found w u pre post :
  Forall2 (fun p c => cs_in true (CChar p) c = true) w u ->
  word_opt (head u) = true -> word_opt (last u) = true ->
  word_opt (last pre) = false -> word_opt (head post) = false ->
  is_Some (re_search true (word_pat (lit w)) (pre ++ u ++ post)).
Proof.
  intros Hwu Hhead Hlast Hpre Hpost.
  unfold re_search. apply search_from_found. rewrite ultimo_last.
  unfold match_at, word_pat. cbn [mt].
  assert (Hu : u <> []) by (by destruct u).
  unfold at_boundary at 1. cbn [m_prev m_rest]. rewrite Hpre.
  replace (head (u ++ post)) with (head u) by (by destruct u).
  rewrite Hhead. cbn [xorb]. rewrite mt_lit. cbn [m_rest].
  rewrite lit_ok_forall2 by done.
  rewrite tras_len by (by apply Forall2_length in Hwu).
  unfold at_boundary. cbn [m_prev m_rest]. rewrite Hpost.
  rewrite ultimo_no_vacio by done.
  rewrite Hlast. cbn [xorb]. eauto.
Qed.

Lemma ascii_bajo c q :
  ascii_tolower c = q -> (q < 128)%N -> (c < 128)%N.
Proof.
  unfold ascii_tolower, is_upper_ascii.
  destruct (N.leb_spec 65 c), (N.leb_spec c 90); simpl; lia.
Qed.

(** under [re.IGNORECASE] an ASCII literal matches its other case *)
Lemma ci_ascii P c :
  (P < 128)%N -> ascii_tolower c = ascii_tolower P ->
  cs_in true (CChar P) c = true.
Proof.
  intros HP Hc.
  assert (HlP : (ascii_tolower P < 128)%N).
  { unfold ascii_tolower, is_upper_ascii.
    destruct (N.leb_spec 65 P), (N.leb_spec P 90); simpl; lia. }
  assert (Hc128 : (c < 128)%N) by (by apply (ascii_bajo c (ascii_tolower P))).
  unfold cs_in. cbn [cs_compiled]. unfold ci_hit, sre_lower.
  rewrite (proj2 (N.ltb_lt c 128) Hc128), (proj2 (N.ltb_lt P 128) HP).
  by rewrite Hc, N.eqb_refl.
Qed.

Lemma letra_es_word c q :
  ascii_tolower c = q -> is_lower_ascii q = true -> is_word c = true.
Proof.
  intros Hc Hq.
  assert (Hq128 : (q < 128)%N).
  { unfold is_lower_ascii in Hq. apply andb_true_iff in Hq as [_ Hq].
    apply N.leb_le in Hq. lia. }
  pose proof (ascii_bajo c q Hc Hq128) as Hc128.
  unfold is_word. rewrite (proj2 (N.ltb_lt c 128) Hc128).
  subst q. unfold ascii_tolower in Hq.
  destruct (is_upper_ascii c); [done|]. by rewrite Hq, orb_true_r.
Qed.

(** X13: a paragraph whose stripped text contains the word "usuario" in
    any mix of upper and lower case, with no word character right
    before or after it, is reported by the invalid-label detector, and
    the error names the first pattern of the table, [\bUsuario\b],
    whatever other patterns the text also contains. *)
Theorem X13_usuario_any_case doc i para pre u post :
  paragraphs doc !! i = Some para ->
  strip (para_text para) = pre ++ u ++ post ->
  List.map ascii_tolower u = py "usuario" ->
  word_opt (last pre) = false ->
  word_opt (head post) = false ->
  filter (fun e => linea_de e = i + 1) (detectar_etiquetas_invalidas doc)
  = [(i + 1, K_ETIQUETA, aviso_patron (py "\bUsuario\b"))].
Proof.
  intros Hi Htexto Hu Hpre Hpost.
  rewrite detectar_unfold, (for_enum_filter _ _ _ _ detectar_local Hi).
  unfold detectar_de. rewrite Htexto.
  assert (Hs : is_Some (re_search true (word_pat (lit (py "Usuario")))
                          (pre ++ u ++ post))).
  { destruct u as [|c1 [|c2 [|c3 [|c4 [|c5 [|c6 [|c7 [|c8 u]]]]]]]];
      try discriminate Hu.
    injection Hu as H1 H2 H3 H4 H5 H6 H7.
    apply word_pat_found; [| | |done|done].
    - repeat constructor; by apply ci_ascii.
    - by apply (letra_es_word c1 _ H1).
    - by apply (letra_es_word c7 _ H7). }
  destruct Hs as [m Hm]. unfold ETIQUETAS_INVALIDAS_PATRONES.
  cbn [primer_patron]. rewrite Hm. unfold aviso_patron. reflexivity.
Qed.

(** X14: the invalid-label detector reports a line at most once; every
    error it reports has the kind "Etiqueta inválida" and names a
    pattern of the table; and it stays silent on a paragraph exactly
    when no pattern of the table is found in the stripped text. *)
Theorem X14_detector_reports_once doc :
  (forall j, length (filter (fun e => linea_de e = j)
                       (detectar_etiquetas_invalidas doc)) <= 1)
  /\ Forall (fun e => tipo_de e = K_ETIQUETA
                      /\ exists patron, patron ∈ ETIQUETAS_INVALIDAS_PATRONES.*1
                                        /\ e.2 = aviso_patron patron)
            (detectar_etiquetas_invalidas doc)
  /\ (forall i para, paragraphs doc !! i = Some para ->
        (filter (fun e => linea_de e = i + 1) (detectar_etiquetas_invalidas doc) = []
         <-> Forall (fun pr => re_search true pr.2 (strip (para_text para)) = None)
                    ETIQUETAS_INVALIDAS_PATRONES)).
Proof.
  assert (Hone : forall i texto pats, length (primer_patron i texto pats) <= 1).
  { intros i texto pats. induction pats as [|[p r] pats IH]; simpl; [lia|].
    destruct (re_search true r texto); [simpl; lia|done]. }
  assert (Hnom : forall i texto pats e, e ∈ primer_patron i texto pats ->
            tipo_de e = K_ETIQUETA
            /\ exists patron, patron ∈ pats.*1 /\ e.2 = aviso_patron patron).
  { intros i texto pats e. induction pats as [|[p r] pats IH]; simpl.
    - by intros ?%elem_of_nil.
    - destruct (re_search true r texto).
      + intros ->%list_elem_of_singleton. split; [done|]. exists p.
        split; [left|done].
      + intros (Hk & patron & Hp & He)%IH. split; [done|]. exists patron.
        split; [by right|done]. }
  assert (Hnil : forall i texto pats,
            primer_patron i texto pats = []
            <-> Forall (fun pr => re_search true pr.2 texto = None) pats).
  { intros i texto pats. induction pats as [|[p r] pats IH]; simpl.
    - split; [constructor|done].
    - rewrite Forall_cons. simpl. destruct (re_search true r texto).
      + split; [done|]. by intros [? _].
      + rewrite IH. split; [done|]. by intros [_ ?]. }
  split; [|split].
  - intros [|i].
    + rewrite filter_none; [simpl; lia|]. apply Forall_forall.
      intros e He. rewrite detectar_unfold in He.
      apply (for_enum_lines _ _ _ detectar_local) in He. lia.
    + replace (S i) with (i + 1) by lia. rewrite detectar_unfold.
      rewrite for_enum_filter_from by (apply detectar_local || lia).
      destruct (_ !! _); [apply Hone|simpl; lia].
  - apply Forall_forall. intros e He. rewrite detectar_unfold in He.
    apply for_enum_elem in He as (j & para & _ & He). by apply Hnom in He.
  - intros i para Hi.
    rewrite detectar_unfold, (for_enum_filter _ _ _ _ detectar_local Hi).
    apply Hnil.
Qed.

End DetectorMas.

(** ** Documents that pass *)

Section Limpios.
Context `{Interp} `{Libs}.

Lemma for_enum_nil {A B} (body : nat -> A -> list B) i (l : list A) :
  Forall (fun x => forall j, body j x = []) l -> for_enum body i l = [].
Proof.
  intros Hall. revert i. induction Hall as [|x l Hx _ IH]; intros i; [done|].
  cbn [for_enum]. by rewrite Hx, IH.
Qed.

Lemma for_enum_nil_inv {A B} (body : nat -> A -> list B) i (l : list A) :
  for_enum body i l = [] ->
  forall j x, l !! j = Some x -> body (i + j) x = [].
Proof.
  revert i; induction l as [|y l IH]; intros i Hnil j x Hj; [done|].
  cbn [for_enum] in Hnil. apply app_eq_nil in Hnil as [Hy Hl].
  destruct j as [|j]; simpl in Hj.
  - injection Hj as <-. by rewrite Nat.add_0_r.
  - replace (i + S j) with (S i + j) by lia. by apply IH.
Qed.

Lemma revisar_runs_nil i rs : revisar_runs i rs = [] <-> Forall limpio rs.
Proof.
  induction rs as [|r rs IH]; simpl; [split; [constructor|done]|].
  rewrite Forall_cons. unfold limpio at 1.
  rewrite <- fuente_mal_spec, <- tam_mal_spec.
  destruct (fuente_mal (run_font r)); [split; [done|by intros [[[] _] _]]|].
  destruct (tam_mal (run_font r)); [split; [done|by intros [[_ []] _]]|].
  rewrite IH. split; [by repeat split|by intros [_ ?]].
Qed.

(** X15: the font and size check reports nothing for a document exactly
    when no run of any paragraph breaks a rule: every run has its font
    name unset, empty or Arial in some case, and its size unset, zero
    or 12 points.  One offending run anywhere is enough for an error. *)
Theorem X15_font_check_complete doc :
  validar_fuente_tamano doc = []
  <-> Forall (fun para => Forall limpio (para_runs para)) (paragraphs doc).
Proof.
  rewrite fuente_unfold. split.
  - intros Hnil. apply Forall_lookup. intros j para Hj.
    apply revisar_runs_nil with (i := j).
    by apply (for_enum_nil_inv fuente_de 0 _ Hnil j para).
  - intros Hall. apply for_enum_nil.
    eapply Forall_impl; [exact Hall|]. intros para Hp j.
    by apply revisar_runs_nil.
Qed.

(** a paragraph that does not begin with capitals A-Z and a colon *)
Definition sin_etiqueta (para : Paragraph) : Prop :=
  forall U resto, U <> [] -> Forall mayuscula U ->
    strip (para_text para) <> U ++ py ":" ++ resto.

Lemma mayusculas_b (l : str) :
  forallb is_upper_ascii l = true -> Forall mayuscula l.
Proof.
  induction l as [|c l IH]; simpl; [constructor|].
  intros [Hc Hl]%andb_true_iff. constructor; [done|by apply IH].
Qed.

Lemma sin_etiqueta_no_entrevistador para :
  sin_etiqueta para -> ~ es_entrevistador (strip (para_text para)).
Proof.
  intros Hsin [[r Hr]|[r Hr]].
  - apply (Hsin (py "ENTREVISTADOR") r); [done| |by rewrite Hr].
    apply mayusculas_b. by vm_compute.
  - apply (Hsin (py "ENTREVISTADORA") r); [done| |by rewrite Hr].
    apply mayusculas_b. by vm_compute.
Qed.

Lemma sin_etiqueta_no_vacia para :
  sin_etiqueta para -> strip (para_text para) ∉ textos_vacios.
Proof.
  intros Hsin Hin. unfold textos_vacios, etiquetas_del_patron in Hin.
  apply list_elem_of_fmap in Hin as (X & Hs & HX).
  apply (Hsin X []); [| |by rewrite Hs].
  - intros ->. repeat (apply elem_of_cons in HX as [HX|HX]);
      try discriminate HX. by apply elem_of_nil in HX.
  - apply mayusculas_b.
    repeat (apply elem_of_cons in HX as [->|HX]);
      [..|by apply elem_of_nil in HX]; by vm_compute.
Qed.

(** X16: a document passes with an empty result, no error and no
    summary entry, whatever the reference list, when each of its
    paragraphs has no question mark, does not begin with capitals and a
    colon, contains none of the forbidden patterns, and has no run that
    breaks the font or size rule. *)
Theorem X16_clean_document_passes nombre b ref doc t :
  docx_Document b = inr doc ->
  Forall (fun para =>
            (63%N ∉ para_text para)
            /\ sin_etiqueta para
            /\ Forall (fun pr => re_search true pr.2 (strip (para_text para)) = None)
                      ETIQUETAS_INVALIDAS_PATRONES
            /\ Forall limpio (para_runs para))
         (paragraphs doc) ->
  analizar_un_docx nombre b ref t
  = (Ret {| archivo := nombre; resumen := ∅; errores := [] |},
     t ++ [EvParseDocx b]).
Proof.
  intros Hdoc Hall. rewrite (analizar_un_docx_ok _ _ _ doc) by done.
  assert (Herr : errores_de doc ref = []); [|unfold resultado_de; by rewrite Herr].
  unfold errores_de.
  rewrite extraer_unfold, etiquetas_unfold, negrita_unfold, fuente_unfold,
    vacia_unfold, detectar_unfold.
  rewrite preguntas_sin_interrogacion.
  2:{ eapply Forall_impl; [exact Hall|]. by intros para (? & _). }
  rewrite !for_enum_nil; [done|..];
    (eapply Forall_impl; [exact Hall|]); intros para (Hq & Hsin & Hpat & Hrs) j.
  - unfold detectar_de. clear Hall.
    induction Hpat as [|[p r] pats Hp _ IH]; [done|].
    simpl in Hp. cbn [primer_patron]. rewrite Hp. exact IH.
  - rewrite vacia_de_spec.
    by rewrite bool_decide_eq_false_2 by (by apply sin_etiqueta_no_vacia).
  - by apply revisar_runs_nil.
  - unfold negrita_de. cbv zeta.
    destruct (_ || _) eqn:Ec; [|done].
    apply negrita_cond in Ec. by apply sin_etiqueta_no_entrevistador in Ec.
  - unfold etiqueta_de. cbv zeta. by rewrite etiqueta_no_match.
Qed.

End Limpios.

(** * The archive endpoint, [/analyze-zip] *)

(** ** Paths, numbers and the ordered summary *)

Module Zip.

(** [p.rfind(c)]: the index of the last [c] in [p] *)
Fixpoint rfind_desde (c : N) (p : str) (i : nat) (visto : option nat)
    : option nat :=
  match p with
  | [] => visto
  | x :: p' => rfind_desde c p' (S i) (if (x =? c)%N then Some i else visto)
  end.

Definition rfind (c : N) (p : str) : option nat := rfind_desde c p 0 None.

(** [os.path.basename(p)] of [posixpath]: what follows the last slash *)
Definition basename (p : str) : str :=
  match rfind 47 p with
  | Some i => drop (S i) p
  | None => p
  end.

(** [os.path.splitext(p)] of [posixpath]: split at the last dot, when it
    comes after the last slash and some character between that slash
    and the dot is not a dot *)
Definition splitext (p : str) : str * str :=
  let inicio := match rfind 47 p with Some i => S i | None => 0 end in
  match rfind 46 p with
  | Some dotIndex =>
    if existsb (fun x => negb (x =? 46)%N) (take (dotIndex - inicio) (drop inicio p))
       && (inicio <=? dotIndex)
    then (take dotIndex p, drop dotIndex p)
    else (p, [])
  | None => (p, [])
  end.

(** [str(n)] of a non-negative [int] *)
Definition decimal (n : nat) : str :=
  List.map N_of_ascii
    (list_ascii_of_string (DecimalString.NilZero.string_of_uint (Nat.to_uint n))).

(** [d[k] = d.get(k, 0) + 1] on a dict that keeps insertion order: a key
    already present keeps its place, a new key goes last *)
Fixpoint dict_incr (k : str) (d : list (str * nat)) : list (str * nat) :=
  match d with
  | [] => [(k, 1)]
  | (k', n) :: d' =>
    if bool_decide (k' = k) then (k', n + 1) :: d'
    else (k', n) :: dict_incr k d'
  end.

(** the counting loop of [analizar_un_docx] on such a dict *)
Definition contar_ordenado (errores_list : list ErrorRecord) : list (str * nat) :=
  foldl (fun resumen e => dict_incr (tipo_error e) resumen) [] errores_list.

(** [resultado["resumen"].items()].  The [gmap] of [AnalysisResult] does
    not record the order in which the loop inserted the kinds; it is
    recovered by running the same loop on an ordered dict. *)
Definition items (resultado : AnalysisResult) : list (str * nat) :=
  contar_ordenado (errores resultado).

Definition salto : str := [10%N].

(** the text written to [<base>_errores.txt] *)
Definition errores_txt (resultado : AnalysisResult) : str :=
  match errores resultado with
  | _ :: _ =>
    flat_map (fun e =>
      py "Línea " ++ decimal (linea e) ++ py ": " ++ tipo_error e
        ++ py " - " ++ descripcion e ++ salto) (errores resultado)
  | [] => py "Sin errores detectados." ++ salto
  end.

(** the text written to [<base>_resumen.txt] *)
Definition resumen_txt (resultado : AnalysisResult) : str :=
  if bool_decide (resumen resultado = ∅)
  then py "Sin errores que resumir." ++ salto
  else
    flat_map (fun '(tipo, count) =>
      tipo ++ py ": " ++ decimal count ++ py " ocurrencias" ++ salto)
      (items resultado).

(** the archive, as the list of [(name, text)] entries written to it *)
Definition ZipFile : Type := list (str * str).

Inductive ZipReply :=
| ZJSONResponse (status_code : nat) (ok : bool) (message : str)
| StreamingResponse (mem_zip : ZipFile) (media_type : str)
    (headers : list (str * str)).

(** the two entries written for one document *)
Definition entradas (nombre : str) (resultado : AnalysisResult) : ZipFile :=
  let base := (splitext (basename nombre)).1 in
  [(base ++ py "_errores.txt", errores_txt resultado);
   (base ++ py "_resumen.txt", resumen_txt resultado)].

Section Endpoint.
Context `{Interp} `{Libs}.

(** the [for f in docx_files] loop inside [with zipfile.ZipFile(...)] *)
Fixpoint empaquetar (docx_files : list UploadFile) (preguntas_ref : list str)
    (zipf : ZipFile) : M ZipFile :=
  match docx_files with
  | [] => ret zipf
  | f :: rest =>
    let* contenido := read f in
    let* resultado := analizar_un_docx (filename f) contenido preguntas_ref in
    empaquetar rest preguntas_ref (zipf ++ entradas (filename f) resultado)
  end.

Definition analyze_zip_endpoint (documentos : list UploadFile)
    (preguntas_excel : UploadFile) (x_token : option str) : M ZipReply :=
  let* _u := check_token x_token in
  let docx_files := List.filter es_docx documentos in
  if Nat.eqb (length docx_files) 0
  then ret (ZJSONResponse 400 false (py "Debes adjuntar al menos un .docx"))
  else
    let docx_files :=
      if Nat.ltb MAX_DOCX (length docx_files)
      then take MAX_DOCX docx_files else docx_files in
    if negb (endswith (lower (filename preguntas_excel)) (py ".xlsx"))
    then ret (ZJSONResponse 400 false (py "Debes adjuntar un .xlsx de preguntas"))
    else
      let* excel_bytes := read preguntas_excel in
      let* preguntas_ref := read_excel_questions excel_bytes in
      let* mem_zip := empaquetar docx_files preguntas_ref [] in
      ret (StreamingResponse mem_zip (py "application/zip")
             [(py "Content-Disposition",
               py "attachment; filename=reportes_transcripciones.zip")]).

End Endpoint.

End Zip.

(** ** The ordered summary and the report texts *)

Section ZipTextos.
Import Zip.

(** the kinds of a list in the order of their first appearance, leaving
    out those already seen *)
Fixpoint primeras (vistos : list str) (ks : list str) : list str :=
  match ks with
  | [] => []
  | k :: ks' =>
    if bool_decide (k ∈ vistos) then primeras vistos ks'
    else k :: primeras (vistos ++ [k]) ks'
  end.

Lemma list_to_map_dict_incr k (d : list (str * nat)) :
  (list_to_map (dict_incr k d) : gmap str nat)
  = <[k := default 0 ((list_to_map d : gmap str nat) !! k) + 1]> (list_to_map d).
Proof.
  induction d as [|[k' n] d IH]; simpl.
  - by rewrite lookup_empty.
  - destruct (decide (k' = k)) as [->|Hne].
    + rewrite bool_decide_eq_true_2 by done. simpl.
      by rewrite lookup_insert_eq, insert_insert_eq.
    + rewrite bool_decide_eq_false_2 by done. simpl.
      rewrite IH, lookup_insert_ne by done. by rewrite insert_insert_ne.
Qed.

Lemma dict_incr_keys k (d : list (str * nat)) :
  (dict_incr k d).*1 = d.*1 ++ (if bool_decide (k ∈ d.*1) then [] else [k]).
Proof.
  induction d as [|[k' n] d IH]; [done|]. cbn [dict_incr].
  destruct (decide (k' = k)) as [->|Hne].
  - clear IH. rewrite bool_decide_eq_true_2 by done. rewrite !fmap_cons.
    cbn [fst]. rewrite bool_decide_eq_true_2 by left. by rewrite app_nil_r.
  - rewrite bool_decide_eq_false_2 by done. rewrite !fmap_cons, IH. clear IH.
    cbn [fst app]. f_equal. destruct (decide (k ∈ d.*1)) as [Hin|Hnin].
    + rewrite bool_decide_eq_true_2 by done.
      by rewrite bool_decide_eq_true_2 by (by right).
    + rewrite bool_decide_eq_false_2 by done.
      rewrite bool_decide_eq_false_2; [done|].
      intros [Hx|Hx]%elem_of_cons; [by apply Hne|by apply Hnin].
Qed.

Definition paso_ordenado (d : list (str * nat)) (e : ErrorRecord) :=
  dict_incr (tipo_error e) d.

Lemma ordenado_map d errs :
  (list_to_map (foldl paso_ordenado d errs) : gmap str nat)
  = foldl paso (list_to_map d) errs.
Proof.
  revert d; induction errs as [|e errs IH]; intros d; simpl; [done|].
  rewrite IH. unfold paso_ordenado. by rewrite list_to_map_dict_incr.
Qed.

Lemma ordenado_keys d errs :
  (foldl paso_ordenado d errs).*1
  = d.*1 ++ primeras d.*1 (tipo_error <$> errs).
Proof.
  revert d; induction errs as [|e errs IH]; intros d; simpl.
  - by rewrite app_nil_r.
  - rewrite IH. unfold paso_ordenado. rewrite dict_incr_keys.
    destruct (bool_decide (tipo_error e ∈ d.*1)).
    + by rewrite app_nil_r.
    + by rewrite <- app_assoc.
Qed.

Lemma primeras_nodup vistos ks :
  NoDup vistos -> NoDup (vistos ++ primeras vistos ks).
Proof.
  revert vistos; induction ks as [|k ks IH]; intros vistos Hv; simpl.
  - by rewrite app_nil_r.
  - destruct (decide (k ∈ vistos)) as [Hin|Hnin].
    + rewrite bool_decide_eq_true_2 by done. by apply IH.
    + rewrite bool_decide_eq_false_2 by done.
      change (k :: primeras (vistos ++ [k]) ks)
        with ([k] ++ primeras (vistos ++ [k]) ks).
      rewrite app_assoc. apply IH. apply NoDup_app. split; [done|].
      split; [|apply NoDup_singleton].
      intros x Hx ->%list_elem_of_singleton. by apply Hnin.
Qed.

Lemma contar_ordenado_map errs :
  (list_to_map (contar_ordenado errs) : gmap str nat) = contar errs.
Proof.
  change (contar_ordenado errs) with (foldl paso_ordenado [] errs).
  by rewrite ordenado_map.
Qed.

Lemma contar_ordenado_keys errs :
  (contar_ordenado errs).*1 = primeras [] (tipo_error <$> errs).
Proof.
  change (contar_ordenado errs) with (foldl paso_ordenado [] errs).
  by rewrite ordenado_keys.
Qed.

Lemma contar_ordenado_nodup errs : NoDup (contar_ordenado errs).*1.
Proof.
  rewrite contar_ordenado_keys.
  apply (primeras_nodup [] (tipo_error <$> errs)). constructor.
Qed.

Lemma contar_ordenado_elem errs k n :
  (k, n) ∈ contar_ordenado errs <-> contar errs !! k = Some n.
Proof.
  rewrite <- contar_ordenado_map.
  apply elem_of_list_to_map. apply contar_ordenado_nodup.
Qed.

Lemma pares_de_claves (f : str -> nat) (d : list (str * nat)) :
  (forall k n, (k, n) ∈ d -> n = f k) -> d = (fun k => (k, f k)) <$> d.*1.
Proof.
  induction d as [|[k n] d IH]; intros Hval; [done|].
  rewrite !fmap_cons. cbn [fst]. f_equal.
  - f_equal. apply Hval. left.
  - apply IH. intros k' n' Hin. apply Hval. by right.
Qed.

Lemma contar_ordenado_counts errs :
  contar_ordenado errs
  = (fun k => (k, ocurrencias k errs)) <$> primeras [] (tipo_error <$> errs).
Proof.
  rewrite <- contar_ordenado_keys. apply pares_de_claves.
  intros k n Hkn%contar_ordenado_elem. rewrite contar_lookup in Hkn.
  destruct (decide _); by inversion Hkn.
Qed.

Lemma contar_ordenado_vacio errs : contar_ordenado errs = [] <-> errs = [].
Proof.
  split; [|by intros ->].
  intros Hnil. apply contar_vacio. rewrite <- contar_ordenado_map. by rewrite Hnil.
Qed.

(** X17: the insertion-ordered dict that the counting loop builds holds
    each kind once, in the order in which the kinds first appear among
    the errors, each with the number of errors of that kind; read as a
    map it is the summary of the result. *)
Theorem X17_summary_order (errs : list ErrorRecord) :
  (list_to_map (contar_ordenado errs) : gmap str nat) = contar errs
  /\ NoDup (contar_ordenado errs).*1
  /\ contar_ordenado errs
     = (fun k => (k, ocurrencias k errs)) <$> primeras [] (tipo_error <$> errs)
  /\ (contar_ordenado errs = [] <-> errs = []).
Proof.
  split; [apply contar_ordenado_map|]. split; [apply contar_ordenado_nodup|].
  split; [apply contar_ordenado_counts|]. apply contar_ordenado_vacio.
Qed.

End ZipTextos.

Section ZipInformes.
Import Zip.
Context `{Interp}.

Definition linea_resumen (errs : list ErrorRecord) (k : str) : str :=
  k ++ py ": " ++ decimal (ocurrencias k errs) ++ py " ocurrencias" ++ salto.

(** X18: the two report texts of a result of the analysis.  The error
    report is the fixed line "Sin errores detectados." exactly when the
    result has no error, and the summary report is the fixed line "Sin
    errores que resumir." exactly when it has none; otherwise the
    summary report has one line per kind, in the order in which the
    kinds first appear among the errors, each with the number of errors
    of that kind. *)
Theorem X18_report_texts nombre doc ref :
  let r := resultado_de nombre doc ref in
  (errores r = [] <-> errores_txt r = py "Sin errores detectados." ++ salto)
  /\ (errores r = [] <-> resumen_txt r = py "Sin errores que resumir." ++ salto)
  /\ (errores r <> [] ->
      resumen_txt r
      = flat_map (linea_resumen (errores r))
                 (primeras [] (tipo_error <$> errores r))).
Proof.
  intros r.
  assert (Hres : resumen r = ∅ <-> errores r = []) by apply contar_vacio.
  assert (Htxt : errores r <> [] ->
    resumen_txt r = flat_map (linea_resumen (errores r))
                      (primeras [] (tipo_error <$> errores r))).
  { intros Hne. unfold resumen_txt, items.
    rewrite bool_decide_eq_false_2 by (by rewrite Hres).
    rewrite contar_ordenado_counts. generalize (errores r) at 1 3. intros errs.
    induction (primeras [] (tipo_error <$> errores r)) as [|k ks IH]; [done|].
    rewrite fmap_cons. cbn [flat_map]. by rewrite IH. }
  split; [|split; [|done]].
  - unfold errores_txt. destruct (errores r) as [|e errs] eqn:Ee; [done|].
    split; [done|]. cbn [flat_map]. intros Heq.
    apply (f_equal head) in Heq. vm_compute in Heq. discriminate Heq.
  - split.
    + intros Hnil. unfold resumen_txt.
      by rewrite bool_decide_eq_true_2 by (by rewrite Hres).
    + intros Heq. destruct (decide (errores r = [])) as [|Hne]; [done|].
      exfalso. rewrite Htxt in Heq by done.
      assert (Hin : 58%N ∈ py "Sin errores que resumir." ++ salto).
      { rewrite <- Heq.
        destruct (primeras [] (tipo_error <$> errores r)) as [|k ks] eqn:Ek.
        - assert (Hk : contar_ordenado (errores r) = [])
            by (by rewrite contar_ordenado_counts, Ek).
          by apply contar_ordenado_vacio in Hk.
        - cbn [flat_map]. unfold linea_resumen.
          rewrite !elem_of_app. left. right. left. left. }
      apply (bool_decide_pack _) in Hin. by vm_compute in Hin.
Qed.

End ZipInformes.

(** ** The base name of a document *)

Section ZipNombres.
Import Zip.

Lemma rfind_desde_none c p i visto :
  c ∉ p -> rfind_desde c p i visto = visto.
Proof.
  revert i visto; induction p as [|x p IH]; intros i visto Hc; [done|].
  apply not_elem_of_cons in Hc as [Hx Hp]. simpl.
  rewrite (proj2 (N.eqb_neq x c)) by done. by apply IH.
Qed.

Lemma rfind_desde_last c a b i visto :
  c ∉ b -> rfind_desde c (a ++ c :: b) i visto = Some (i + length a).
Proof.
  intros Hb. revert i visto; induction a as [|x a IH]; intros i visto; simpl.
  - rewrite N.eqb_refl, rfind_desde_none by done. f_equal. lia.
  - rewrite IH. f_equal. lia.
Qed.

Lemma rfind_none c p : c ∉ p -> rfind c p = None.
Proof. apply rfind_desde_none. Qed.

Lemma rfind_last c a b : c ∉ b -> rfind c (a ++ c :: b) = Some (length a).
Proof. intros Hb. unfold rfind. by rewrite rfind_desde_last. Qed.

(** the base name of a name without slash, [stem.ext] *)
Lemma splitext_stem stem ext :
  47%N ∉ stem -> 47%N ∉ ext -> 46%N ∉ ext ->
  (splitext (stem ++ 46%N :: ext)).1
  = if existsb (fun x => negb (x =? 46)%N) stem then stem
    else stem ++ 46%N :: ext.
Proof.
  intros Hs He Hd. unfold splitext.
  rewrite (rfind_none 47).
  2:{ rewrite elem_of_app, elem_of_cons.
      intros [H1|[H2|H3]]; [by apply Hs|discriminate H2|by apply He]. }
  rewrite rfind_last by done. rewrite Nat.sub_0_r, drop_0, take_app_length.
  rewrite (proj2 (Nat.leb_le 0 (length stem))) by lia. rewrite andb_true_r.
  by destruct (existsb _ stem).
Qed.

Lemma basename_dir dir nombre :
  47%N ∉ nombre -> basename (dir ++ 47%N :: nombre) = nombre.
Proof.
  intros Hn. unfold basename. rewrite rfind_last by done.
  change (dir ++ 47%N :: nombre) with (dir ++ [47%N] ++ nombre).
  rewrite app_assoc, drop_app_length'; [done|].
  rewrite length_app. simpl. lia.
Qed.

Lemma basename_plano nombre : 47%N ∉ nombre -> basename nombre = nombre.
Proof. intros Hn. unfold basename. by rewrite rfind_none. Qed.

(** X19: the base under which a document's two reports are stored.
    For a file name [stem.ext], alone or after a directory path, where
    [ext] has no dot: the base is [stem] when [stem] has a character
    that is not a dot; when [stem] is empty or made of dots only (a
    name such as ".docx") the whole name, extension included, is the
    base. *)
Theorem X19_report_base_name stem ext :
  47%N ∉ stem -> 47%N ∉ ext -> 46%N ∉ ext ->
  let nombre := stem ++ py "." ++ ext in
  (Exists (fun x => x <> 46%N) stem ->
     (splitext (basename nombre)).1 = stem
     /\ forall dir, (splitext (basename (dir ++ py "/" ++ nombre))).1 = stem)
  /\ (Forall (fun x => x = 46%N) stem ->
     (splitext (basename nombre)).1 = nombre
     /\ forall dir, (splitext (basename (dir ++ py "/" ++ nombre))).1 = nombre).
Proof.
  intros Hs He Hd nombre.
  assert (Hn : 47%N ∉ nombre).
  { unfold nombre. change (py "." ++ ext) with (46%N :: ext).
    rewrite elem_of_app, elem_of_cons.
    intros [H1|[H2|H3]]; [by apply Hs|discriminate H2|by apply He]. }
  assert (Hb : basename nombre = nombre) by (by apply basename_plano).
  assert (Hbd : forall dir, basename (dir ++ py "/" ++ nombre) = nombre)
    by (intros dir; by apply basename_dir).
  unfold nombre in *. change (py "." ++ ext) with (46%N :: ext) in *.
  split.
  - intros Hex.
    assert (Hb' : existsb (fun x => negb (x =? 46)%N) stem = true).
    { apply existsb_exists. apply Exists_exists in Hex as (x & Hx & Hne).
      exists x. split; [by apply list_elem_of_In|].
      by rewrite (proj2 (N.eqb_neq x 46)). }
    split; [|intros dir; rewrite Hbd]; rewrite ?Hb, splitext_stem by done;
      by rewrite Hb'.
  - intros Hall.
    assert (Hb' : existsb (fun x => negb (x =? 46)%N) stem = false).
    { apply not_true_is_false. intros (x & Hx & Hne)%existsb_exists.
      rewrite Forall_forall in Hall.
      rewrite (Hall x) in Hne by (by apply list_elem_of_In). done. }
    split; [|intros dir; rewrite Hbd]; rewrite ?Hb, splitext_stem by done;
      by rewrite Hb'.
Qed.

End ZipNombres.

(** ** The archive endpoint and the JSON endpoint *)

Section ZipEndpoint.
Import Zip.
Context `{Interp} `{Libs}.

Definition cabeceras : list (str * str) :=
  [(py "Content-Disposition",
    py "attachment; filename=reportes_transcripciones.zip")].

(** how a reply failed, if it did *)
Definition fallo {A} (x : reply A) : option (exn + nat * str) :=
  match x with
  | Ret _ => None
  | Raised e => Some (inl e)
  | HTTPException c d => Some (inr (c, d))
  end.

Lemma zip_rechazo_token documentos excel x_token tok t :
  API_TOKEN = Some tok -> x_token <> Some tok ->
  analyze_zip_endpoint documentos excel x_token t
  = (HTTPException 401 (py "Unauthorized"), t).
Proof.
  intros Htok Hne. unfold analyze_zip_endpoint, bind.
  by rewrite (check_token_reject _ tok).
Qed.

Lemma zip_sin_docx documentos excel x_token t :
  autorizado x_token ->
  List.filter es_docx documentos = [] ->
  analyze_zip_endpoint documentos excel x_token t =
  (Ret (ZJSONResponse 400 false (py "Debes adjuntar al menos un .docx")), t).
Proof.
  intros Hok Hnone. unfold analyze_zip_endpoint, bind.
  rewrite check_token_ok by done. rewrite Hnone. reflexivity.
Qed.

Lemma zip_sin_xlsx documentos excel x_token t :
  autorizado x_token ->
  List.filter es_docx documentos <> [] ->
  es_xlsx excel = false ->
  analyze_zip_endpoint documentos excel x_token t =
  (Ret (ZJSONResponse 400 false (py "Debes adjuntar un .xlsx de preguntas")), t).
Proof.
  intros Hok Hsome Hx. unfold analyze_zip_endpoint, bind.
  rewrite check_token_ok by done.
  rewrite hay_docx by done. unfold es_xlsx in Hx. rewrite Hx. reflexivity.
Qed.

Lemma zip_hasta_excel documentos excel x_token t :
  autorizado x_token ->
  List.filter es_docx documentos <> [] ->
  es_xlsx excel = true ->
  analyze_zip_endpoint documentos excel x_token t =
  bind (lift (pd_read_excel_C (content excel)))
    (fun df =>
       bind (empaquetar (aceptados documentos)
               (List.map cell_str (omap id df)) [])
         (fun mem_zip =>
            ret (StreamingResponse mem_zip (py "application/zip") cabeceras)))
    (t ++ [EvRead excel; EvParseXlsx (content excel)]).
Proof.
  intros Hok Hsome Hx. unfold analyze_zip_endpoint, bind at 1.
  rewrite check_token_ok by done.
  rewrite hay_docx by done. unfold es_xlsx in Hx. rewrite Hx. cbn [negb].
  rewrite truncar. fold (aceptados documentos).
  unfold bind at 1, read, bind at 1, tell, ret.
  unfold bind at 1, read_excel_questions, bind at 1, tell.
  unfold bind at 1. rewrite <- app_assoc. cbn [app].
  unfold bind, lift, ret. by destruct (pd_read_excel_C (content excel)).
Qed.

Lemma empaquetar_paso f rest ref z t :
  empaquetar (f :: rest) ref z t =
  match docx_Document (content f) with
  | inr d =>
    empaquetar rest ref
      (z ++ entradas (filename f) (resultado_de (filename f) d ref))
      (t ++ traza_docx f)
  | inl e => (Raised e, t ++ traza_docx f)
  end.
Proof.
  cbn [empaquetar]. unfold bind at 1, read, bind at 1, tell, ret.
  unfold bind at 1.
  destruct (docx_Document (content f)) as [e|d] eqn:Ed.
  - rewrite (analizar_un_docx_raise _ _ _ e) by done.
    by rewrite <- app_assoc.
  - rewrite (analizar_un_docx_ok _ _ _ d) by done.
    by rewrite <- app_assoc.
Qed.

Lemma analizar_cada_uno_paso f rest ref acc t :
  analizar_cada_uno (f :: rest) ref acc t =
  match docx_Document (content f) with
  | inr d =>
    analizar_cada_uno rest ref (acc ++ [resultado_de (filename f) d ref])
      (t ++ traza_docx f)
  | inl e => (Raised e, t ++ traza_docx f)
  end.
Proof.
  cbn [analizar_cada_uno]. unfold bind at 1, read, bind at 1, tell, ret.
  unfold bind at 1.
  destruct (docx_Document (content f)) as [e|d] eqn:Ed.
  - rewrite (analizar_un_docx_raise _ _ _ e) by done.
    by rewrite <- app_assoc.
  - rewrite (analizar_un_docx_ok _ _ _ d) by done.
    by rewrite <- app_assoc.
Qed.

(** the two document loops go the same way *)
Lemma bucles_iguales fs ref acc z t :
  (empaquetar fs ref z t).2 = (analizar_cada_uno fs ref acc t).2
  /\ fallo (empaquetar fs ref z t).1 = fallo (analizar_cada_uno fs ref acc t).1
  /\ (forall rs, (analizar_cada_uno fs ref acc t).1 = Ret rs ->
        exists zs, (empaquetar fs ref z t).1 = Ret zs
          /\ length zs + 2 * length acc = length z + 2 * length rs).
Proof.
  revert acc z t; induction fs as [|f fs IH]; intros acc z t.
  - simpl. repeat split. intros rs [= <-]. exists z. split; [done|lia].
  - rewrite empaquetar_paso, analizar_cada_uno_paso.
    destruct (docx_Document (content f)) as [e|d]; [by repeat split|].
    destruct (IH (acc ++ [resultado_de (filename f) d ref])
                 (z ++ entradas (filename f) (resultado_de (filename f) d ref))
                 (t ++ traza_docx f)) as (Hlog & Hf & Hret).
    split; [done|]. split; [done|].
    intros rs Hrs. destruct (Hret rs Hrs) as (zs & Hzs & Hlen).
    exists zs. split; [done|]. rewrite !length_app in Hlen. simpl in Hlen. lia.
Qed.

Lemma empaquetar_ok fs docs ref z t :
  Forall2 (fun f d => docx_Document (content f) = inr d) fs docs ->
  empaquetar fs ref z t =
  (Ret (z ++ concat (zip_with
                       (fun f d => entradas (filename f)
                                     (resultado_de (filename f) d ref))
                       fs docs)),
   t ++ flat_map traza_docx fs).
Proof.
  intros Hall. revert z t.
  induction Hall as [|f d fs docs Hd _ IH]; intros z t.
  - simpl. by rewrite !app_nil_r.
  - rewrite empaquetar_paso, Hd, IH. cbn [zip_with concat flat_map].
    by rewrite <- !app_assoc.
Qed.

(** X20: when the request is let through, the reference file is a
    .xlsx that [pandas] reads, and the kept documents parse, the archive
    endpoint answers with an archive that holds, for each kept document
    in input order, its error report and then its summary report: two
    entries per document, at most twenty, after reading and parsing
    exactly the files that the JSON endpoint reads and parses. *)
Theorem X20_archive_two_reports_per_document documentos excel x_token df docs t :
  autorizado x_token ->
  List.filter es_docx documentos <> [] ->
  es_xlsx excel = true ->
  pd_read_excel_C (content excel) = inr df ->
  Forall2 (fun f d => docx_Document (content f) = inr d) (aceptados documentos) docs ->
  let ref := List.map cell_str (omap id df) in
  let mem_zip :=
    concat (zip_with
              (fun f d =>
                 let r := resultado_de (filename f) d ref in
                 let base := (splitext (basename (filename f))).1 in
                 [(base ++ py "_errores.txt", errores_txt r);
                  (base ++ py "_resumen.txt", resumen_txt r)])
              (aceptados documentos) docs) in
  analyze_zip_endpoint documentos excel x_token t =
    (Ret (StreamingResponse mem_zip (py "application/zip") cabeceras),
     t ++ [EvRead excel; EvParseXlsx (content excel)]
       ++ flat_map traza_docx (aceptados documentos))
  /\ length mem_zip = 2 * length (aceptados documentos)
  /\ length mem_zip <= 20.
Proof.
  intros Hok Hsome Hx Hdf Hdocs ref mem_zip.
  assert (Hlen : length mem_zip = 2 * length (aceptados documentos)).
  { unfold mem_zip. clear -Hdocs.
    induction Hdocs as [|f d fs ds _ _ IH]; [done|].
    cbn [zip_with concat]. rewrite length_app, IH. simpl. lia. }
  split; [|split; [done|]].
  - rewrite zip_hasta_excel by done.
    unfold bind at 1, lift. rewrite Hdf. unfold bind.
    rewrite (empaquetar_ok _ docs) by done. unfold ret. cbn [app].
    by rewrite <- !app_assoc.
  - rewrite Hlen. unfold aceptados, MAX_DOCX. rewrite length_take. lia.
Qed.

Lemma autorizado_dec x_token :
  autorizado x_token
  \/ exists tok, API_TOKEN = Some tok /\ x_token <> Some tok.
Proof.
  unfold autorizado. destruct API_TOKEN as [tok|]; [|by left].
  destruct (decide (x_token = Some tok)); [by left|right; by exists tok].
Qed.

(** X21: for every request, the archive endpoint and the JSON endpoint
    read and parse the same files in the same order and fail the same
    way: the same 401, the same 400 response with the same message, the
    same exception from a spreadsheet or a document that does not
    parse.  When the JSON endpoint answers with n results, the archive
    endpoint answers with an archive of 2n entries. *)
Theorem X21_archive_endpoint_same_gate documentos excel x_token t :
  let a := analyze_endpoint documentos excel x_token t in
  let z := analyze_zip_endpoint documentos excel x_token t in
  z.2 = a.2
  /\ fallo z.1 = fallo a.1
  /\ (forall c o m, a.1 = Ret (JSONResponse c o m)
                    <-> z.1 = Ret (ZJSONResponse c o m))
  /\ (forall o n rs, a.1 = Ret (AnalyzeResponse o n rs) ->
        n = length rs
        /\ exists zs, z.1 = Ret (StreamingResponse zs (py "application/zip") cabeceras)
                      /\ length zs = 2 * n).
Proof.
  intros a z. subst a z.
  destruct (autorizado_dec x_token) as [Hok|(tok & Htok & Hne)].
  2:{ rewrite (zip_rechazo_token _ _ _ tok) by done.
      unfold analyze_endpoint, bind.
      rewrite (check_token_reject _ tok) by done. cbn [fst snd fallo].
      split; [reflexivity|]. split; [reflexivity|]. split.
      - intros c o m. split; intros Heq; discriminate Heq.
      - intros o n rs Heq. discriminate Heq. }
  destruct (decide (List.filter es_docx documentos = [])) as [Hnone|Hsome].
  { rewrite zip_sin_docx, analyze_endpoint_sin_docx by done.
    cbn [fst snd fallo].
    split; [reflexivity|]. split; [reflexivity|]. split.
    - intros c o m. split; intros Heq; injection Heq as <- <- <-; reflexivity.
    - intros o n rs Heq. discriminate Heq. }
  destruct (es_xlsx excel) eqn:Hx.
  2:{ rewrite zip_sin_xlsx, analyze_endpoint_sin_xlsx by done.
      cbn [fst snd fallo].
      split; [reflexivity|]. split; [reflexivity|]. split.
      - intros c o m. split; intros Heq; injection Heq as <- <- <-; reflexivity.
      - intros o n rs Heq. discriminate Heq. }
  rewrite zip_hasta_excel, analyze_endpoint_hasta_excel by done.
  set (t1 := t ++ [EvRead excel; EvParseXlsx (content excel)]).
  destruct (pd_read_excel_C (content excel)) as [e|df].
  { unfold bind, lift. cbn [fst snd fallo].
    split; [reflexivity|]. split; [reflexivity|]. split.
    - intros c o m. split; intros Heq; discriminate Heq.
    - intros o n rs Heq. discriminate Heq. }
  set (ref := List.map cell_str (omap id df)).
  destruct (bucles_iguales (aceptados documentos) ref [] [] t1)
    as (Hlog & Hf & Hret).
  unfold bind at 1 3 5 7 9 11, lift. unfold bind, ret. fold ref.
  destruct (empaquetar (aceptados documentos) ref [] t1) as [[zs|e|hc hd] tz];
    destruct (analizar_cada_uno (aceptados documentos) ref [] t1)
      as [[rs|e'|hc' hd'] ta];
    cbn [fst snd fallo] in Hlog, Hf |- *; subst tz; try discriminate Hf.
  - split; [reflexivity|]. split; [reflexivity|]. split.
    + intros c o m. split; intros Heq; discriminate Heq.
    + intros o n rs' Heq. injection Heq as <- <- <-. split; [reflexivity|].
      destruct (Hret rs eq_refl) as (zs' & Hzs & Hlen).
      injection Hzs as <-. exists zs. split; [reflexivity|].
      cbn [length] in Hlen. lia.
  - injection Hf as <-.
    split; [reflexivity|]. split; [reflexivity|]. split.
    + intros c o m. split; intros Heq; discriminate Heq.
    + intros o n rs Heq. discriminate Heq.
  - injection Hf as <- <-.
    split; [reflexivity|]. split; [reflexivity|]. split.
    + intros c o m. split; intros Heq; discriminate Heq.
    + intros o n rs Heq. discriminate Heq.
Qed.

End ZipEndpoint.

(** * The further properties at concrete inputs *)

Module EjemplosMas.

Import Demo Zip.

Definition negrita (s : string) : Run :=
  {| run_text := py s; run_bold := Some true;
     run_font := {| font_name := Some (py "ARIAL"); font_size := Some 152400%Z |} |}.

Definition entrevistador : Paragraph :=
  {| para_text := py "ENTREVISTADOR: Hola";
     para_runs := [negrita "ENTREVISTADOR:"; plain " Hola"] |}.

(** an interviewer line with a run that is not bold, a line under an
    unknown label, a line of plain text, a question, and a line that
    names the user *)
Definition doc : Document :=
  {| paragraphs := [entrevistador; para "USUARIO: algo"; para "hola mundo";
                    para "¿Qué hora es? No sé."; para "Hola UsUaRiO, pase"] |}.

Definition doc_limpio : Document := {| paragraphs := [para "hola mundo"] |}.

Definition ref : list str := [py "¿Cómo estás?"].

Definition secreto : str := py "secreto".

(** libraries that refuse an empty file *)
Definition libs_estrictas (d : Document) : Libs := {|
  exn := str;
  docx_Document := fun b =>
    match b with [] => inl (py "PackageNotFoundError") | _ :: _ => inr d end;
  cell := str;
  pd_read_excel_C := fun b =>
    match b with [] => inl (py "BadZipFile") | _ :: _ => inr (List.map Some ref) end;
  cell_str := fun c => c;
  API_TOKEN := Some secreto
|}.

#[local] Instance interp_mas : Interp := Demo.interp.
#[local] Instance libs_mas : Libs := libs_estrictas doc.

Definition lleno : bytes := [Byte.x50; Byte.x4b].

Definition subida (nombre : string) (b : bytes) : UploadFile :=
  {| filename := py nombre; content := b |}.

Definition excel : UploadFile := subida "matriz.xlsx" lleno.
Definition excel_roto : UploadFile := subida "matriz.xlsx" [].

Definition lote : list UploadFile :=
  [subida "uno.docx" lleno; subida "dos.docx" []; subida "tres.docx" lleno].

Definition token : option str := Some secreto.

Lemma X1_witness :
  analyze_endpoint lote excel None []
  = (HTTPException 401 (py "Unauthorized"), []).
Proof.
  apply (proj1 (@X1_wrong_token_stops_request interp_mas libs_mas
                  lote excel None secreto [] eq_refl)).
  discriminate.
Defined.

Lemma autorizado_token : autorizado token.
Proof. reflexivity. Defined.

Lemma hay_lote : List.filter es_docx lote <> [].
Proof. vm_compute. discriminate. Defined.

Lemma X2_witness :
  analyze_endpoint lote excel_roto token []
  = (Raised (py "BadZipFile"),
     [] ++ [EvRead excel_roto; EvParseXlsx (content excel_roto)]).
Proof.
  apply (X2_unreadable_spreadsheet_aborts lote excel_roto token).
  - exact autorizado_token.
  - exact hay_lote.
  - vm_compute. reflexivity.
  - reflexivity.
Defined.

Definition hoja : list (option (@cell libs_mas)) :=
  List.map (fun q : str => Some q) ref.

Lemma X3_witness :
  analyze_endpoint lote excel token []
  = (Raised (py "PackageNotFoundError"),
     [] ++ [EvRead excel; EvParseXlsx (content excel)]
        ++ flat_map traza_docx [subida "uno.docx" lleno]
        ++ traza_docx (subida "dos.docx" [])).
Proof.
  apply (X3_malformed_document_fails_batch lote excel token hoja
           [subida "uno.docx" lleno] [doc] (subida "dos.docx" [])
           [subida "tres.docx" lleno]).
  - exact autorizado_token.
  - vm_compute. reflexivity.
  - reflexivity.
  - vm_compute. reflexivity.
  - constructor; [reflexivity|constructor].
  - reflexivity.
Defined.

Lemma X4_witness :
  exists r,
    analizar_un_docx (py "uno.docx") lleno ref [] = (Ret r, [] ++ [EvParseDocx lleno])
    /\ archivo r = py "uno.docx"
    /\ total (resumen r) = length (errores r)
    /\ (resumen r = ∅ <-> errores r = [])
    /\ (paragraphs doc = [] -> errores r = []).
Proof. exact (X4_summary_total (py "uno.docx") lleno ref doc [] eq_refl). Defined.

Lemma X6_witness :
  1 <= 4 <= length (paragraphs doc)
  /\ exists cuerpo, py "¿Qué hora es?" = cuerpo ++ py "?"
       /\ (63%N ∉ cuerpo) /\ (10%N ∉ cuerpo)
       /\ (forall c, head (py "¿Qué hora es?") = Some c -> isspace c = false).
Proof.
  apply (X6_extracted_question_shape doc 4 (py "¿Qué hora es?")).
  vm_compute. left.
Defined.

Lemma X9_witness :
  extraer_preguntas_docx doc_limpio = []
  /\ comparar_preguntas (extraer_preguntas_docx doc_limpio) ref = [].
Proof.
  apply (X9_no_question_mark_no_error doc_limpio ref).
  constructor; [|constructor]. apply (bool_decide_unpack _). vm_compute. exact I.
Defined.

Lemma X10_witness :
  filter (fun e => linea_de e = 0 + 1) (validar_negrita_entrevistador doc)
  = [(0 + 1, K_NEGRITA,
      py "Texto de " ++ py "ENTREVISTADOR" ++ py " no está completamente en negrita.")].
Proof.
  apply (proj1 (X10_interviewer_bold_exact doc 0 entrevistador eq_refl)
           (py "ENTREVISTADOR") (py " Hola")).
  - left.
  - vm_compute. reflexivity.
  - right. left. split; [vm_compute; discriminate|discriminate].
Defined.

Lemma X11_witness :
  filter (fun e => linea_de e = 1 + 1) (validar_etiquetas_docx doc)
  = [(1 + 1, K_ETIQUETA, py "Etiqueta '" ++ py "USUARIO" ++ py "' no es válida.")].
Proof.
  apply (X11_label_check_exact doc 1 (para "USUARIO: algo") (py "USUARIO") (py " algo")).
  - reflexivity.
  - vm_compute. reflexivity.
  - vm_compute. discriminate.
  - apply mayusculas_b. vm_compute. reflexivity.
  - apply (bool_decide_unpack _). vm_compute. exact I.
Defined.

Lemma hola_sin_etiqueta : sin_etiqueta (para "hola mundo").
Proof.
  intros U resto HU Hm Heq. destruct U as [|c U]; [by apply HU|].
  apply Forall_cons in Hm as [Hc _].
  vm_compute in Heq. injection Heq as <- _.
  vm_compute in Hc. discriminate Hc.
Qed.

Lemma X12_witness :
  filter (fun e => linea_de e = 2 + 1) (validar_etiquetas_docx doc) = [].
Proof.
  apply (X12_no_capital_label_no_error doc 2 (para "hola mundo")).
  - reflexivity.
  - exact hola_sin_etiqueta.
Defined.

Lemma X13_witness :
  filter (fun e => linea_de e = 4 + 1) (detectar_etiquetas_invalidas doc)
  = [(4 + 1, K_ETIQUETA, aviso_patron (py "\bUsuario\b"))].
Proof.
  apply (X13_usuario_any_case doc 4 (para "Hola UsUaRiO, pase")
           (py "Hola ") (py "UsUaRiO") (py ", pase")).
  - reflexivity.
  - vm_compute. reflexivity.
  - vm_compute. reflexivity.
  - vm_compute. reflexivity.
  - vm_compute. reflexivity.
Defined.

Lemma sin_patrones_b (s : str) (l : list (str * Re.regex)) :
  forallb (fun pr => match re_search true pr.2 s with
                     | None => true
                     | Some _ => false
                     end) l = true ->
  Forall (fun pr => re_search true pr.2 s = None) l.
Proof.
  induction l as [|pr l IH]; simpl; [constructor|].
  intros [Hpr Hl]%andb_true_iff. constructor; [|by apply IH].
  destruct (re_search true pr.2 s); [discriminate Hpr|reflexivity].
Qed.

Lemma X16_witness :
  @analizar_un_docx interp_mas (libs_estrictas doc_limpio)
    (py "limpio.docx") lleno ref []
  = (Ret {| archivo := py "limpio.docx"; resumen := ∅; errores := [] |},
     [] ++ [EvParseDocx lleno]).
Proof.
  apply (@X16_clean_document_passes interp_mas (libs_estrictas doc_limpio)
           (py "limpio.docx") lleno ref doc_limpio []).
  - reflexivity.
  - constructor; [|constructor].
    split; [|split; [|split]].
    + apply (bool_decide_unpack _). vm_compute. exact I.
    + exact hola_sin_etiqueta.
    + apply sin_patrones_b. vm_compute. reflexivity.
    + constructor; [|constructor]. split.
      * intros (n & Hn & _). discriminate Hn.
      * intros (emu & Hemu & _). discriminate Hemu.
Defined.

Lemma X19_witness :
  (splitext (basename (py "acta" ++ py "." ++ py "docx"))).1 = py "acta"
  /\ forall dir,
       (splitext (basename (dir ++ py "/" ++ py "acta" ++ py "." ++ py "docx"))).1
       = py "acta".
Proof.
  apply (proj1 (X19_report_base_name (py "acta") (py "docx")
                  ltac:(apply (bool_decide_unpack _); vm_compute; exact I)
                  ltac:(apply (bool_decide_unpack _); vm_compute; exact I)
                  ltac:(apply (bool_decide_unpack _); vm_compute; exact I))).
  left. vm_compute. discriminate.
Defined.

Definition lote_bueno : list UploadFile :=
  [subida "uno.docx" lleno; subida "notas.txt" lleno; subida "actas/dos.DOCX" lleno].

Lemma X20_witness :
  let ref := List.map cell_str (omap id hoja) in
  let mem_zip :=
    concat (zip_with
              (fun f d =>
                 let r := resultado_de (filename f) d ref in
                 let base := (splitext (basename (filename f))).1 in
                 [(base ++ py "_errores.txt", errores_txt r);
                  (base ++ py "_resumen.txt", resumen_txt r)])
              (aceptados lote_bueno) [doc; doc]) in
  analyze_zip_endpoint lote_bueno excel token [] =
    (Ret (StreamingResponse mem_zip (py "application/zip") cabeceras),
     [] ++ [EvRead excel; EvParseXlsx (content excel)]
       ++ flat_map traza_docx (aceptados lote_bueno))
  /\ length mem_zip = 2 * length (aceptados lote_bueno)
  /\ length mem_zip <= 20.
Proof.
  apply (X20_archive_two_reports_per_document lote_bueno excel token hoja [doc; doc] []).
  - exact autorizado_token.
  - vm_compute. discriminate.
  - vm_compute. reflexivity.
  - reflexivity.
  - replace (aceptados lote_bueno) with
      [subida "uno.docx" lleno; subida "actas/dos.DOCX" lleno]
      by (vm_compute; reflexivity).
    constructor; [reflexivity|]. constructor; [reflexivity|constructor].
Defined.

End EjemplosMas.
